(** * The tgres receiver: director, forwarding decision and loader

    A shallow embedding of [receiver/director.go]: the worker that reads
    forwarded points off the cluster transport, the local-or-forward
    decision, the per-point entry of the director, the loader loop and the
    dispatch of the director's event loop.

    Go pointers to handles ([*cachedDs]) are modelled as references into the
    data source cache, which owns every handle; functions that work on one
    handle take its value and return the updated value, and the callers
    that hold the pointer write it back.  Calls on injected collaborators
    (statistics, log, flusher) are recorded in one ordered trace; channels
    are part of the state. *)

From Stdlib Require Import ZArith String List Bool Lia.
From Stdlib Require Import Floats.SpecFloat.
From stdpp Require Import base option list gmap strings.

Local Open Scope string_scope.
Local Open Scope list_scope.
Local Open Scope Z_scope.

(** ** Machine integers *)

(** Go's [int] on a 64-bit target: arithmetic wraps around. *)
Definition wrap64 (z : Z) : Z := (z + 2 ^ 63) mod 2 ^ 64 - 2 ^ 63.

(** [n++] *)
Definition incr (n : Z) : Z := wrap64 (n + 1).

(** ** Floating point values *)

(** [math.IsNaN] on a binary64 value. *)
Definition IsNaN (f : spec_float) : bool :=
  match f with
  | S754_nan => true
  | _ => false
  end.

(** ** Points *)

Definition error : Type := string.

(** Modelled from the spec: the [incomingDP] struct (its declaration is
    outside this file): identifier, value, hop count and arrival time. *)
Record incomingDP : Type := mkDP {
  Ident : string;
  TimeStamp : Z;
  Value : spec_float;
  Hops : Z
}.

Definition setHops (dp : incomingDP) (h : Z) : incomingDP :=
  {| Ident := Ident dp; TimeStamp := TimeStamp dp; Value := Value dp; Hops := h |}.

(** ** The cluster package, as far as the director uses it *)

Module cluster.

(** Modelled from the spec: a cluster member with its name, its readiness
    and the address used in statistic names. *)
Record Node : Type := mkNode {
  Name : string;
  Ready : bool;
  SanitizedAddr : string
}.

(** Modelled from the spec: the body of an envelope either is the encoding
    of a point or does not decode. *)
Inductive body : Type :=
| Gob (dp : incomingDP)
| Malformed.

Record Msg : Type := mkMsg {
  Dst : option Node;
  Body : body
}.

(** [cluster.NewMsg(node, dp)]: encodes the point as it is at the call. *)
Definition NewMsg (node : Node) (dp : incomingDP) : Msg :=
  {| Dst := Some node; Body := Gob dp |}.

(** [m.Decode(&dp)] *)
Definition Decode (m : Msg) : error + incomingDP :=
  match Body m with
  | Gob dp => inr dp
  | Malformed => inl "decode error"
  end.

End cluster.

(** ** Channels *)

(** A channel that can be closed.  A send on an open channel is modelled as
    completed (the item is appended); blocking is not modelled. *)
Record chan (A : Type) : Type := mkChan {
  closed : bool;
  buf : list A
}.
Arguments mkChan {A} _ _.
Arguments closed {A} _.
Arguments buf {A} _.

Definition openChan {A : Type} : chan A := mkChan false [].

(** ** Log lines *)

(** One constructor per [log.Printf] of the file, with its arguments. *)
Inductive logline : Type :=
| LogDecodeFailed
| LogMaxHops (maxHops : Z)
| LogForwardError (err : error)
| LogProcessError (ident : string) (err : error)
| LogClearingDS (pc : Z)
| LogNoSpec (ident : string)
| LogLoaderClosed
| LogLoaderDbError (err : error)
| LogTransitionError (err : error)
| LogUnknownType
| LogDirectorExit
| LogClosingLoader.

(** ** External collaborators *)

(** The persisted record behind a handle ([serde.DbDataSourcer]) and the
    storage it comes from.  Both are outside the receiver: the director
    only calls these operations. *)
Class Persistence (DS DB DSSpec : Type) : Type := {
  DsIdent : DS -> string;
  Id : DS -> Z;
  PointCount : DS -> Z;
  ClearRRAs : bool -> DS -> DS;
  ProcessDataPoint : spec_float -> Z -> DS -> DS * option error;
  NewDs : string -> DS;
  FetchOrCreateDataSource : string -> DSSpec -> DB -> (error + DS * bool) * DB;
  (** a record that was never saved carries the sentinel id *)
  NewDs_Id : forall ident, Id (NewDs ident) = 0
}.

(** ** Results *)

(** A call returns, or panics. *)
Inductive result (A : Type) : Type :=
| Ok (a : A)
| Panic (why : string).
Arguments Ok {A} _.
Arguments Panic {A} _.

(** A [*cachedDs]: handles live in the cache and are named by their
    identifier. *)
Abbreviation ref := string.

Section Receiver.

Context {DS DB DSSpec : Type} `{!Persistence DS DB DSSpec}.

(** ** Handles and the cache *)

(** The [cachedDs] struct: the embedded record, the pending points and the
    specification a placeholder was made from ([nil] once loaded).  The
    created flag is what [Created()] reports. *)
Record cachedDs : Type := mkCds {
  DbDataSourcer : DS;
  incoming : list incomingDP;
  spec : option DSSpec;
  created : bool
}.

Definition setIncoming (cds : cachedDs) (l : list incomingDP) : cachedDs :=
  {| DbDataSourcer := DbDataSourcer cds; incoming := l;
     spec := spec cds; created := created cds |}.

Definition setDs (cds : cachedDs) (ds : DS) : cachedDs :=
  {| DbDataSourcer := ds; incoming := incoming cds;
     spec := spec cds; created := created cds |}.

Definition Created (cds : cachedDs) : bool := created cds.


(** Modelled from the spec: the [dsCache] (declared outside this file) maps
    identifiers to handles and knows the configured specifications. *)
Record dsCache : Type := mkDsc {
  byIdent : gmap string cachedDs;
  finder : string -> option DSSpec
}.

(** The [clusterer] interface, as far as the decision uses it. *)
Record clusterer : Type := mkClusterer {
  LocalNode : cluster.Node;
  NodesForDistDatum : DS -> list cluster.Node
}.

(** ** Queue items *)

(** What travels on a [chan interface{}]: a [*incomingDP] or a [*cachedDs]
    (either may be a nil pointer), the untyped nil, or anything else. *)
Inductive item : Type :=
| ItemDP (dp : option incomingDP)
| ItemCds (cds : option ref)
| ItemNil
| ItemOther (ty : string).

(** ** The state the code acts on *)

(** Calls on the statistics reporter, the log and the flusher, in order. *)
Inductive event : Type :=
| StatCount (name : string) (v : Z)
| Log (l : logline)
| FlushDs (ds : DS) (block : bool).

Record World : Type := mkWorld {
  trace : list event;
  snd : list cluster.Msg;
  loaderCh : chan item;
  dpCh : chan item;
  dsc : dsCache;
  db : DB
}.

Definition addTrace (e : event) (w : World) : World :=
  {| trace := trace w ++ [e]; snd := snd w; loaderCh := loaderCh w;
     dpCh := dpCh w; dsc := dsc w; db := db w |}.

Definition setSnd (s : list cluster.Msg) (w : World) : World :=
  {| trace := trace w; snd := s; loaderCh := loaderCh w;
     dpCh := dpCh w; dsc := dsc w; db := db w |}.

Definition setLoaderCh (c : chan item) (w : World) : World :=
  {| trace := trace w; snd := snd w; loaderCh := c;
     dpCh := dpCh w; dsc := dsc w; db := db w |}.

Definition setDpCh (c : chan item) (w : World) : World :=
  {| trace := trace w; snd := snd w; loaderCh := loaderCh w;
     dpCh := c; dsc := dsc w; db := db w |}.

Definition setDsc (c : dsCache) (w : World) : World :=
  {| trace := trace w; snd := snd w; loaderCh := loaderCh w;
     dpCh := dpCh w; dsc := c; db := db w |}.

Definition setDb (d : DB) (w : World) : World :=
  {| trace := trace w; snd := snd w; loaderCh := loaderCh w;
     dpCh := dpCh w; dsc := dsc w; db := d |}.

(** ** The monad: state, and Go panics *)

Definition M (A : Type) : Type := World -> result A * World.

Definition ret {A : Type} (a : A) : M A := fun w => (Ok a, w).

Definition bind {A B : Type} (m : M A) (k : A -> M B) : M B :=
  fun w =>
    match m w with
    | (Ok a, w') => k a w'
    | (Panic why, w') => (Panic why, w')
    end.

Notation "'let!' x ':=' m 'in' k" := (bind m (fun x => k))
  (at level 10, x pattern, k at level 200).
Notation "m ;; k" := (bind m (fun _ => k))
  (at level 100, right associativity).

Definition panic {A : Type} (why : string) : M A := fun w => (Panic why, w).

(** [defer func() { recover() }()]: a panic ends the function normally. *)
Definition recovering (m : M unit) : M unit :=
  fun w =>
    match m w with
    | (Panic _, w') => (Ok tt, w')
    | r => r
    end.

Definition emit (e : event) : M unit := fun w => (Ok tt, addTrace e w).

(** [sr.reportStatCount(name, v)] *)
Definition reportStatCount (name : string) (v : Z) : M unit :=
  emit (StatCount name v).

(** [log.Printf(...)] *)
Definition logPrintf (l : logline) : M unit := emit (Log l).

(** [dsf.flushDs(ds, block)]; its result is not used by the director. *)
Definition flushDs (ds : DS) (block : bool) : M unit :=
  emit (FlushDs ds block).

(** [snd <- msg].  The send path belongs to the cluster and is never closed
    by this file. *)
Definition sendSnd (msg : cluster.Msg) : M unit :=
  fun w => (Ok tt, setSnd (snd w ++ [msg]) w).

Definition chanSend {A : Type} (c : chan A) (x : A) : option (chan A) :=
  if closed c then None else Some (mkChan false (buf c ++ [x])).

Definition chanClose {A : Type} (c : chan A) : option (chan A) :=
  if closed c then None else Some (mkChan true (buf c)).

(** [loaderCh <- x] *)
Definition sendLoaderCh (x : item) : M unit :=
  fun w =>
    match chanSend (loaderCh w) x with
    | Some c => (Ok tt, setLoaderCh c w)
    | None => (Panic "send on closed channel", w)
    end.

(** [dpCh <- x] *)
Definition sendDpCh (x : item) : M unit :=
  fun w =>
    match chanSend (dpCh w) x with
    | Some c => (Ok tt, setDpCh c w)
    | None => (Panic "send on closed channel", w)
    end.

(** [close(loaderCh)] *)
Definition closeLoaderCh : M unit :=
  fun w =>
    match chanClose (loaderCh w) with
    | Some c => (Ok tt, setLoaderCh c w)
    | None => (Panic "close of closed channel", w)
    end.

(** [close(dpCh)] *)
Definition closeDpCh : M unit :=
  fun w =>
    match chanClose (dpCh w) with
    | Some c => (Ok tt, setDpCh c w)
    | None => (Panic "close of closed channel", w)
    end.

(** Reading and writing a handle through its pointer. *)
Definition load (p : ref) : M cachedDs :=
  fun w =>
    match byIdent (dsc w) !! p with
    | Some cds => (Ok cds, w)
    | None => (Panic "invalid memory address or nil pointer dereference", w)
    end.

Definition store (p : ref) (cds : cachedDs) : M unit :=
  fun w =>
    (Ok tt, setDsc {| byIdent := <[p := cds]> (byIdent (dsc w));
                      finder := finder (dsc w) |} w).

(** ** directorForwardDPToNode *)

(** Returns the point as the call leaves it (the caller's pointer sees the
    incremented hop count) and the error. *)
Definition directorForwardDPToNode (dp : incomingDP) (node : cluster.Node)
  : M (incomingDP * option error) :=
  if Hops dp =? 0 then
    if cluster.Ready node then
      let dp' := setHops dp (incr (Hops dp)) in
      sendSnd (cluster.NewMsg node dp') ;;
      ret (dp', None)
    else
      ret (dp, Some "directorForwardDPToNode: Node is not ready")
  else ret (dp, None).

(** ** processIncoming and directorProcessDataPoint *)

Fixpoint applyPoints (ds : DS) (dps : list incomingDP) (err : option error)
  : DS * option error :=
  match dps with
  | [] => (ds, err)
  | dp :: rest =>
      let '(ds', e) := ProcessDataPoint (Value dp) (TimeStamp dp) ds in
      applyPoints ds' rest e
  end.

(** Modelled from the spec: [cachedDs.processIncoming] (outside this file)
    applies every buffered point to the record in order and clears the
    buffer; it returns how many points it applied, and an error when
    applying the last one failed. *)
Definition processIncoming (cds : cachedDs) : Z * option error * cachedDs :=
  let '(ds', err) := applyPoints (DbDataSourcer cds) (incoming cds) None in
  (Z.of_nat (length (incoming cds)), err, setIncoming (setDs cds ds') []).

Definition directorProcessDataPoint (cds : cachedDs) : M (Z * cachedDs) :=
  let '(cnt, err, cds') := processIncoming cds in
  match err with
  | Some e => logPrintf (LogProcessError (DsIdent (DbDataSourcer cds')) e)
  | None => ret tt
  end ;;
  (if 0 <? PointCount (DbDataSourcer cds')
   then flushDs (DbDataSourcer cds') false
   else ret tt) ;;
  ret (cnt, cds').

(** ** directorProcessOrForward *)

(** The inner loop over [cds.incoming].  Only the count is returned: the
    points themselves are unreachable once the caller has set
    [cds.incoming = nil]. *)
Fixpoint forwardIncoming (node : cluster.Node) (dps : list incomingDP)
  (forwarded : Z) : M Z :=
  match dps with
  | [] => ret forwarded
  | dp :: rest =>
      let! r := directorForwardDPToNode dp node in
      match r.2 with
      | Some e =>
          logPrintf (LogForwardError e) ;;
          forwardIncoming node rest forwarded
      | None => forwardIncoming node rest (incr forwarded)
      end
  end.

(** The named results and the handle, as one iteration leaves them. *)
Record decision : Type := mkDecision {
  accepted : Z;
  forwarded : Z;
  dest : string;
  handle : cachedDs
}.

(** The body of the loop over the owner nodes. *)
Definition processOrForwardNode (clstr : clusterer) (node : cluster.Node)
  (d : decision) : M decision :=
  if String.eqb (cluster.Name node) (cluster.Name (LocalNode clstr)) then
    let! r := directorProcessDataPoint (handle d) in
    ret {| accepted := r.1; forwarded := forwarded d; dest := dest d;
           handle := r.2 |}
  else
    let dest' := cluster.SanitizedAddr node in
    let! f := forwardIncoming node (incoming (handle d)) (forwarded d) in
    let cds := setIncoming (handle d) [] in
    let pc := PointCount (DbDataSourcer cds) in
    (if 0 <? pc then logPrintf (LogClearingDS pc) else ret tt) ;;
    ret {| accepted := accepted d; forwarded := f; dest := dest';
           handle := setDs cds (ClearRRAs true (DbDataSourcer cds)) |}.

Fixpoint forNodes (clstr : clusterer) (nodes : list cluster.Node)
  (d : decision) : M decision :=
  match nodes with
  | [] => ret d
  | node :: rest =>
      let! d' := processOrForwardNode clstr node d in
      forNodes clstr rest d'
  end.

Definition directorProcessOrForward (cds : cachedDs)
  (clstr : option clusterer) : M decision :=
  match clstr with
  | None =>
      let! r := directorProcessDataPoint cds in
      ret {| accepted := r.1; forwarded := 0; dest := ""; handle := r.2 |}
  | Some c =>
      forNodes c (NodesForDistDatum c (DbDataSourcer cds))
        {| accepted := 0; forwarded := 0; dest := ""; handle := cds |}
  end.

(** ** directorProcessIncomingDP *)

(** Modelled from the spec: [dsCache.getByIdentOrCreateEmpty] (outside this
    file) returns the existing handle if present; otherwise, if the
    identifier matches a configured specification, it inserts and returns
    a fresh placeholder; it returns nil if no specification matches. *)
Definition getByIdentOrCreateEmpty (ident : string) : M (option ref) :=
  fun w =>
    match byIdent (dsc w) !! ident with
    | Some _ => (Ok (Some ident), w)
    | None =>
        match finder (dsc w) ident with
        | Some sp =>
            let cds := {| DbDataSourcer := NewDs ident; incoming := [];
                          spec := Some sp; created := false |} in
            (Ok (Some ident),
             setDsc {| byIdent := <[ident := cds]> (byIdent (dsc w));
                       finder := finder (dsc w) |} w)
        | None => (Ok None, w)
        end
    end.

(** Modelled from the spec: [cachedDs.appendIncoming] (outside this file)
    appends the point to the handle's pending buffer. *)
Definition appendIncoming (cds : cachedDs) (dp : incomingDP) : cachedDs :=
  setIncoming cds (incoming cds ++ [dp]).

(** The statistics reported after a decision; the same statements follow
    both calls of [directorProcessOrForward].  A count is reported as the
    integer that [float64(...)] converts. *)
Definition reportCounts (accepted forwarded : Z) (dest : string) : M unit :=
  if 0 <? forwarded then
    reportStatCount (String.append "receiver.forwarded_to." dest) forwarded ;;
    reportStatCount "receiver.datapoints.forwarded" forwarded
  else if 0 <? accepted then
    reportStatCount "receiver.datapoints.accepted" accepted
  else ret tt.

(** [debug] is a package variable. *)
Definition directorProcessIncomingDP (debug : bool) (dp : incomingDP)
  (clstr : option clusterer) : M unit :=
  reportStatCount "receiver.datapoints.total" 1 ;;
  (if IsNaN (Value dp) then ret tt
   else
     let! r := getByIdentOrCreateEmpty (Ident dp) in
     match r with
     | None =>
         reportStatCount "receiver.datapoints.dropped" 1 ;;
         (if debug then logPrintf (LogNoSpec (Ident dp)) else ret tt)
     | Some p =>
         let! cds0 := load p in
         let cds := appendIncoming cds0 dp in
         store p cds ;;
         (if Id (DbDataSourcer cds) =? 0 then
            sendLoaderCh (ItemCds (Some p))
          else
            let! d := directorProcessOrForward cds clstr in
            store p (handle d) ;;
            reportCounts (accepted d) (forwarded d) (dest d))
     end).

(** ** directorincomingDPMessages *)

(** The messages that arrive on [rcv] before it is closed are given as a
    list; at its end the receive reports [!ok]. *)
Fixpoint incomingDPLoop (rcv : list cluster.Msg) : M unit :=
  match rcv with
  | [] => ret tt
  | m :: rest =>
      match cluster.Decode m with
      | inl _ =>
          logPrintf LogDecodeFailed ;;
          incomingDPLoop rest
      | inr dp =>
          let maxHops := 2 in
          if maxHops <? Hops dp then
            logPrintf (LogMaxHops maxHops) ;;
            incomingDPLoop rest
          else
            sendDpCh (ItemDP (Some dp)) ;;
            incomingDPLoop rest
      end
  end.

Definition directorincomingDPMessages (rcv : list cluster.Msg) : M unit :=
  recovering (incomingDPLoop rcv).

(** ** loader *)

(** Modelled from the spec: [dsCache.fetchOrCreateByIdent] (outside this
    file) looks the identifier up in persistence and creates the record if
    absent; on success the handle refers to the record, is marked created
    when the record was new, and no longer carries a specification; on a
    storage error the handle is left as it was. *)
Definition fetchOrCreateByIdent (cds : cachedDs) (sp : DSSpec)
  : M (error + cachedDs) :=
  fun w =>
    match FetchOrCreateDataSource (DsIdent (DbDataSourcer cds)) sp (db w) with
    | (inl e, db') => (Ok (inl e), setDb db' w)
    | (inr (ds, isNew), db') =>
        (Ok (inr {| DbDataSourcer := ds; incoming := incoming cds;
                    spec := None; created := isNew |}), setDb db' w)
    end.

(** What follows the materialization in one iteration. *)
Definition loaderDeliver (p : ref) (cds : cachedDs) : M unit :=
  (if Created cds then reportStatCount "receiver.created" 1 else ret tt) ;;
  sendDpCh (ItemCds (Some p)).

(** One iteration of the loader's loop on an item read from
    [loaderOutCh]. *)
Definition loaderBody (x : item) : M unit :=
  match x with
  | ItemCds (Some p) =>
      let! cds := load p in
      match spec cds with
      | Some sp =>
          let! r := fetchOrCreateByIdent cds sp in
          match r with
          | inl e => logPrintf (LogLoaderDbError e)
          | inr cds' => store p cds' ;; loaderDeliver p cds'
          end
      | None => loaderDeliver p cds
      end
  | ItemCds None => panic "invalid memory address or nil pointer dereference"
  | _ => panic "interface conversion"
  end.

(** The loop: the items read before [loaderOutCh] is closed, then the
    closure.  The relay between [loaderCh] and [loaderOutCh] and the gauge
    reporter run beside the loop and are not part of it. *)
Fixpoint loader (xs : list item) : M unit :=
  match xs with
  | [] =>
      logPrintf LogLoaderClosed ;;
      closeDpCh
  | x :: rest =>
      loaderBody x ;;
      loader rest
  end.

(** ** director *)

(** What one [select] of the event loop receives: a cluster change (with
    the result [clstr.Transition] will give), or a receive on [dpOutCh]
    ([None] when it is closed). *)
Inductive selected : Type :=
| ClusterChg (ok : bool) (transition : option error)
| DpOut (x : option item).

Inductive next : Type := Continue | Return.

(** One iteration of the event loop. *)
Definition directorBody (debug : bool) (clstr : option clusterer)
  (s : selected) : M next :=
  match s with
  | ClusterChg ok transition =>
      match ok, transition with
      | true, Some e => logPrintf (LogTransitionError e)
      | _, _ => ret tt
      end ;;
      ret Continue
  | DpOut r =>
      let x := default ItemNil r in
      let ok := bool_decide (is_Some r) in
      let! sw :=
        match x with
        | ItemDP dp => ret (dp, None)
        | ItemCds cds => ret (None, cds)
        | ItemNil => ret (None, None)
        | ItemOther _ => logPrintf LogUnknownType ;; ret (None, None)
        end in
      if negb ok then
        logPrintf LogDirectorExit ;;
        ret Return
      else
        match sw with
        | (Some dp, _) =>
            directorProcessIncomingDP debug dp clstr ;;
            ret Continue
        | (None, Some p) =>
            let! cds := load p in
            let! d := directorProcessOrForward cds clstr in
            store p (handle d) ;;
            reportCounts (accepted d) (forwarded d) (dest d) ;;
            ret Continue
        | (None, None) =>
            logPrintf LogClosingLoader ;;
            closeLoaderCh ;;
            ret Continue
        end
  end.

(** The event loop over what its selects receive.  The start of [director]
    (registering with the cluster, starting the relays, the receive worker
    and the loader) comes before the loop and is not part of it. *)
Fixpoint director (debug : bool) (clstr : option clusterer)
  (ss : list selected) : M next :=
  match ss with
  | [] => ret Continue
  | s :: rest =>
      let! n := directorBody debug clstr s in
      match n with
      | Return => ret Return
      | Continue => director debug clstr rest
      end
  end.

(** ** Reading the trace *)

(** The value of a statistics counter: the sum of what was reported under
    its name. *)
Fixpoint counter (name : string) (tr : list event) : Z :=
  match tr with
  | [] => 0
  | StatCount n v :: rest =>
      (if String.eqb n name then v else 0) + counter name rest
  | _ :: rest => counter name rest
  end.

(** The flush calls, oldest first. *)
Fixpoint flushes (tr : list event) : list (DS * bool) :=
  match tr with
  | [] => []
  | FlushDs ds block :: rest => (ds, block) :: flushes rest
  | _ :: rest => flushes rest
  end.

(** The log, oldest first. *)
Fixpoint logged (tr : list event) : list logline :=
  match tr with
  | [] => []
  | Log l :: rest => l :: logged rest
  | _ :: rest => logged rest
  end.

(** ** The receive path, as the specification words it *)

(** A message is delivered when it decodes and its hop count does not
    exceed 2. *)
Definition deliverable (m : cluster.Msg) : option incomingDP :=
  match cluster.Decode m with
  | inr dp => if Hops dp <=? 2 then Some dp else None
  | inl _ => None
  end.

(** The log line of a message that is dropped. *)
Definition dropLine (m : cluster.Msg) : option logline :=
  match cluster.Decode m with
  | inl _ => Some LogDecodeFailed
  | inr dp => if Hops dp <=? 2 then None else Some (LogMaxHops 2)
  end.

Definition deliveredItems (rcv : list cluster.Msg) : list item :=
  omap (fun m => (fun dp => ItemDP (Some dp)) <$> deliverable m) rcv.

Definition dropLog (rcv : list cluster.Msg) : list event :=
  omap (fun m => Log <$> dropLine m) rcv.

End Receiver.

(** ** A small persistence layer to run the code on *)

Module Sample.

(** A record keeps the points applied to it since the last save. *)
Record ds : Type := mkDs {
  ident : string;
  id : Z;
  points : list (Z * spec_float)
}.

(** The storage: ids by identifier, the next free id, and whether the
    database can be reached. *)
Record storage : Type := mkStorage {
  online : bool;
  nextId : Z;
  rows : list (string * Z)
}.

Fixpoint find (ident : string) (rows : list (string * Z)) : option Z :=
  match rows with
  | [] => None
  | (i, n) :: rest => if String.eqb i ident then Some n else find ident rest
  end.

Definition fetchOrCreate (ident : string) (sp : unit) (db : storage)
  : (error + ds * bool) * storage :=
  if online db then
    match find ident (rows db) with
    | Some n => (inr (mkDs ident n [], false), db)
    | None =>
        (inr (mkDs ident (nextId db) [], true),
         mkStorage true (nextId db + 1) ((ident, nextId db) :: rows db))
    end
  else (inl "database is unreachable", db).

#[export] Instance persistence : Persistence ds storage unit := {|
  DsIdent := ident;
  Id := id;
  PointCount := fun d => Z.of_nat (length (points d));
  ClearRRAs := fun _ d => mkDs (ident d) (id d) [];
  ProcessDataPoint := fun v t d =>
    (mkDs (ident d) (id d) (points d ++ [(t, v)]), None);
  NewDs := fun i => mkDs i 0 [];
  FetchOrCreateDataSource := fetchOrCreate;
  NewDs_Id := fun _ => eq_refl
|}.

Definition one : spec_float := S754_finite false 1 0.

Definition point (i : string) (h : Z) : incomingDP :=
  {| Ident := i; TimeStamp := 10; Value := one; Hops := h |}.

Definition local : cluster.Node :=
  {| cluster.Name := "a"; cluster.Ready := true;
     cluster.SanitizedAddr := "10_0_0_1" |}.

Definition remote (ready : bool) : cluster.Node :=
  {| cluster.Name := "b"; cluster.Ready := ready;
     cluster.SanitizedAddr := "10_0_0_2" |}.

(** A loaded handle for ["host.mem"] holding the given pending points. *)
Definition mem (dps : list incomingDP) : @cachedDs ds unit :=
  {| DbDataSourcer := mkDs "host.mem" 7 []; incoming := dps;
     spec := None; created := false |}.

(** A placeholder for ["host.cpu"], not yet materialized. *)
Definition cpu (dps : list incomingDP) : @cachedDs ds unit :=
  {| DbDataSourcer := mkDs "host.cpu" 0 []; incoming := dps;
     spec := Some tt; created := false |}.

(** The only configured specification matches identifiers that start with
    ["host."]. *)
Definition hostOnly (i : string) : option unit :=
  if String.prefix "host." i then Some tt else None.

Definition world (handles : list (string * @cachedDs ds unit)) (up : bool)
  : @World ds storage unit :=
  {| trace := []; snd := []; loaderCh := openChan; dpCh := openChan;
     dsc := {| byIdent := list_to_map handles; finder := hostOnly |};
     db := mkStorage up 1 [] |}.

(** A point whose value is not a number. *)
Definition nanPoint : incomingDP :=
  {| Ident := "host.cpu"; TimeStamp := 10; Value := S754_nan; Hops := 0 |}.

(** A loaded handle that still holds one aggregated point. *)
Definition busy (dps : list incomingDP) : @cachedDs ds unit :=
  {| DbDataSourcer := mkDs "host.mem" 7 [(9, one)]; incoming := dps;
     spec := None; created := false |}.

(** Three envelopes: a point forwarded once, one that does not decode, and
    a point that went over three hops. *)
Definition envelopes : list cluster.Msg :=
  [ cluster.NewMsg local (point "host.mem" 1);
    {| cluster.Dst := Some local; cluster.Body := cluster.Malformed |};
    cluster.NewMsg local (point "host.mem" 3) ].

(** Nothing cached, nothing sent, the database reachable. *)
Definition w0 : @World ds storage unit := world [] true.

(** A cluster in which the given nodes own every identifier. *)
Definition owners (nodes : list cluster.Node) : @clusterer ds :=
  {| LocalNode := local; NodesForDistDatum := fun _ => nodes |}.

(** Another remote node. *)
Definition far : cluster.Node :=
  {| cluster.Name := "c"; cluster.Ready := true;
     cluster.SanitizedAddr := "10_0_0_3" |}.

(** The cache holds the placeholder for ["host.cpu"] and nothing else. *)
Definition loading : @World ds storage unit :=
  world [("host.cpu", cpu [])] true.

(** The cache holds a loaded handle for ["host.mem"] with two points in
    its buffer. *)
Definition pending : @World ds storage unit :=
  world [("host.mem", mem [point "host.mem" 0; point "host.mem" 0])] true.

(** The cache holds a loaded handle for ["host.mem"]. *)
Definition loaded : @World ds storage unit :=
  world [("host.mem", mem [])] true.

End Sample.

(** * The Graphite find handler *)

(** [GraphiteMetricsFindHandler] of [http/graphite.go]: the body it writes
    for the nodes that [rcache.FsFind] returns.  The closing log line, which
    carries the elapsed time, is left out. *)

Module graphite.

(** The newline and the double quote of the format strings, and the dot
    that separates the parts of a name. *)
Definition nl : string := String (Ascii.ascii_of_nat 10) EmptyString.
Definition dq : string := String (Ascii.ascii_of_nat 34) EmptyString.
Definition dot : Ascii.ascii := Ascii.ascii_of_nat 46.

(** [dsl.FsFindNode], the fields the handler reads. *)
Record FsFindNode : Type := mkFsFindNode {
  Name : string;
  Leaf : bool;
  Expandable : bool
}.

(** [strings.Split(s, sep)] for a separator of one byte: the parts between
    the separators, at least one part. *)
Fixpoint Split (s : string) (sep : Ascii.ascii) : list string :=
  match s with
  | EmptyString => [EmptyString]
  | String ch rest =>
      if Ascii.eqb ch sep then EmptyString :: Split rest sep
      else
        match Split rest sep with
        | part :: parts => String ch part :: parts
        | [] => [String ch EmptyString]
        end
  end.

(** [parts := strings.Split(node.Name, "."); suffix := parts[len(parts)-1]] *)
Definition suffixOf (name : string) : string :=
  List.last (Split name dot) EmptyString.

(** The body of the first loop, on [dupe] and [uniq].  A key that is not in
    a [map[string]bool] reads as [false]. *)
Definition uniqStep (st : gmap string bool * list FsFindNode)
  (node : FsFindNode) : gmap string bool * list FsFindNode :=
  let suffix := suffixOf (Name node) in
  let uniq := if default false (st.1 !! suffix) then st.2
              else st.2 ++ [node] in
  (<[suffix := true]> st.1, uniq).

Definition uniqNodes (nodes : list FsFindNode) : list FsFindNode :=
  (fold_left uniqStep nodes (∅, [])).2.

(** [%d] of [ileaf] and [iexp]. *)
Definition flag (b : bool) : string := if b then "1" else "0".

(** The object written for one node. *)
Definition entry (node : FsFindNode) : string :=
  let iexp := flag (Expandable node) in
  "{" +:+ dq +:+ "leaf" +:+ dq +:+ ": " +:+ flag (Leaf node)
  +:+ ", " +:+ dq +:+ "context" +:+ dq +:+ ": {}, "
  +:+ dq +:+ "text" +:+ dq +:+ ": " +:+ dq +:+ suffixOf (Name node) +:+ dq
  +:+ ", " +:+ dq +:+ "expandable" +:+ dq +:+ ": " +:+ iexp
  +:+ ", " +:+ dq +:+ "id" +:+ dq +:+ ": " +:+ dq +:+ Name node +:+ dq
  +:+ ", " +:+ dq +:+ "allowChildren" +:+ dq +:+ ": " +:+ iexp +:+ "}".

(** The second loop, from index [n] on, over a slice of length [len]. *)
Fixpoint writeEntries (n len : Z) (uniq : list FsFindNode) : string :=
  match uniq with
  | [] => EmptyString
  | node :: rest =>
      entry node
      +:+ (if n <? len - 1 then "," +:+ nl else EmptyString)
      +:+ writeEntries (n + 1) len rest
  end.

Definition GraphiteMetricsFindHandler (nodes : list FsFindNode) : string :=
  let uniq := uniqNodes nodes in
  "[" +:+ nl
  +:+ writeEntries 0 (Z.of_nat (length uniq)) uniq
  +:+ nl +:+ "]" +:+ nl.


(** ** The body of the render response *)

(** The loops of [GraphiteRenderHandler] that write the series once all
    targets are read.  How [%v] prints a [float64] and an [int64] is left to
    the two format functions. *)

(** Graphite data points *)
Record dataPoint : Type := mkDataPoint {
  t : Z;
  v : spec_float
}.

Record graphiteSeries : Type := mkSeries {
  dps : list dataPoint;
  name : string
}.

(** [math.IsInf(f, 0)] *)
Definition IsInf (f : spec_float) : bool :=
  match f with
  | S754_infinity _ => true
  | _ => false
  end.

Section Render.

Variable fmtFloat : spec_float -> string.
Variable fmtInt : Z -> string.

(** What is written for a point that is written. *)
Definition writePoint (dp : dataPoint) : string :=
  if IsNaN (v dp) || IsInf (v dp) then
    "[null, " +:+ fmtInt (t dp) +:+ "]"
  else
    "[" +:+ fmtFloat (v dp) +:+ ", " +:+ fmtInt (t dp) +:+ "]".

(** The loop over [series.dps], with its counter [n]. *)
Fixpoint writePoints (n : Z) (points : list dataPoint) : string :=
  match points with
  | [] => EmptyString
  | dp :: rest =>
      if 0 <? t dp then
        (if 0 <? n then "," else EmptyString)
        +:+ writePoint dp
        +:+ writePoints (incr n) rest
      else writePoints n rest
  end.

Definition seriesHead (series : graphiteSeries) : string :=
  nl +:+ "{" +:+ dq +:+ "target" +:+ dq +:+ ": " +:+ dq +:+ name series
  +:+ dq +:+ ", " +:+ dq +:+ "datapoints" +:+ dq +:+ ": [" +:+ nl.

(** The loop over the series of target number [tn], with its counter [nn]. *)
Fixpoint writeSeries (tn lenTargets nn lenTarget : Z)
  (target : list graphiteSeries) : string :=
  match target with
  | [] => EmptyString
  | series :: rest =>
      seriesHead series
      +:+ writePoints 0 (dps series)
      +:+ (if (nn <? lenTarget - 1) || (tn <? lenTargets - 1)
           then "]}," +:+ nl else "]}")
      +:+ writeSeries tn lenTargets (incr nn) lenTarget rest
  end.

Definition emptyTarget : string :=
  nl +:+ "{" +:+ dq +:+ "datapoints" +:+ dq +:+ ":[]}".

(** The loop over the targets, from index [tn] on. *)
Fixpoint writeTargets (tn lenTargets : Z)
  (targets : list (list graphiteSeries)) : string :=
  match targets with
  | [] => EmptyString
  | target :: rest =>
      (if Z.of_nat (length target) =? 0 then
         if tn <? lenTargets - 1 then emptyTarget +:+ "," +:+ nl
         else emptyTarget +:+ nl
       else EmptyString)
      +:+ writeSeries tn lenTargets 0 (Z.of_nat (length target)) target
      +:+ writeTargets (tn + 1) lenTargets rest
  end.

Definition renderBody (targets : list (list graphiteSeries)) : string :=
  "[" +:+ writeTargets 0 (Z.of_nat (length targets)) targets +:+ "]" +:+ nl.

(** *** The response as a list of elements *)

(** What the response holds for one target: its series, or one object
    without a name when the target gave no series. *)
Inductive element : Type :=
| OfSeries (series : graphiteSeries)
| OfNothing.

Definition elementsOf (target : list graphiteSeries) : list element :=
  match target with
  | [] => [OfNothing]
  | _ => map OfSeries target
  end.

(** An element as it is written when more elements follow, or none. *)
Definition writeElement (more : bool) (e : element) : string :=
  match e with
  | OfSeries series =>
      seriesHead series +:+ writePoints 0 (dps series)
      +:+ (if more then "]}," +:+ nl else "]}")
  | OfNothing =>
      if more then emptyTarget +:+ "," +:+ nl else emptyTarget +:+ nl
  end.

Fixpoint writeElements (es : list element) : string :=
  match es with
  | [] => EmptyString
  | e :: rest =>
      writeElement (negb (bool_decide (rest = []))) e +:+ writeElements rest
  end.

(** The points that are written, joined by commas. *)
Definition joinPoints (points : list dataPoint) : string :=
  String.concat "," (map writePoint (filter (fun dp => 0 < t dp) points)).

End Render.

End graphite.

(** ** Inputs to run the Graphite handlers on *)

Module GraphiteSample.

Definition found : list graphite.FsFindNode :=
  [ graphite.mkFsFindNode "a.cpu" true false;
    graphite.mkFsFindNode "b.cpu" true false;
    graphite.mkFsFindNode "b" false true ].

Definition points : list graphite.dataPoint :=
  [ graphite.mkDataPoint 5 (S754_finite false 1 0);
    graphite.mkDataPoint 0 (S754_finite false 1 0);
    graphite.mkDataPoint 6 S754_nan ].

Definition targets : list (list graphite.graphiteSeries) :=
  [ [graphite.mkSeries points "a.cpu"]; [] ].

(** Format functions that only tell the values apart. *)
Definition showFloat (f : spec_float) : string :=
  match f with
  | S754_zero _ => "0"
  | _ => "1"
  end.

Definition showInt (z : Z) : string :=
  match z with
  | 0 => "0"
  | Z.pos _ => "+"
  | Z.neg _ => "-"
  end.

End GraphiteSample.

(** * Properties *)

Lemma wrap64_small (z : Z) : - 2 ^ 63 <= z < 2 ^ 63 -> wrap64 z = z.
Proof.
  intros Hz. unfold wrap64.
  rewrite Z.mod_small by lia. lia.
Qed.

Lemma incr_0 : incr 0 = 1.
Proof. reflexivity. Qed.

Lemma last_cons_default {A : Type} (l : list A) (a x : A) :
  List.last (a :: l) x = List.last l a.
Proof.
  revert a x. induction l as [|b l IH]; intros a x; [reflexivity|].
  change (List.last (a :: b :: l) x) with (List.last (b :: l) x).
  rewrite (IH b x), (IH b a). reflexivity.
Qed.

Section Properties.

Context {DS DB DSSpec : Type} `{!Persistence DS DB DSSpec}.

Local Abbreviation World := (@World DS DB DSSpec).
Local Abbreviation cachedDs := (@cachedDs DS DSSpec).
Local Abbreviation event := (@event DS).

Implicit Types (w : World) (cds : cachedDs) (tr : list event).
Implicit Types (dp : incomingDP) (node : cluster.Node).

(** *** The trace readers distribute over appended calls *)

Lemma counter_app name tr1 tr2 :
  counter name (tr1 ++ tr2) = counter name tr1 + counter name tr2.
Proof.
  induction tr1 as [|e tr1 IH]; simpl; [reflexivity|].
  destruct e; rewrite IH; lia.
Qed.

Lemma flushes_app tr1 tr2 :
  flushes (tr1 ++ tr2) = flushes tr1 ++ flushes tr2.
Proof.
  induction tr1 as [|e tr1 IH]; simpl; [reflexivity|].
  destruct e; rewrite IH; reflexivity.
Qed.

Lemma logged_app tr1 tr2 :
  logged (tr1 ++ tr2) = logged tr1 ++ logged tr2.
Proof.
  induction tr1 as [|e tr1 IH]; simpl; [reflexivity|].
  destruct e; rewrite IH; reflexivity.
Qed.


Lemma logged_forward_errors (errs : list error) :
  logged (map (fun e => Log (LogForwardError e) : event) errs)
  = map LogForwardError errs.
Proof. induction errs as [|e l IH]; cbn; [|rewrite IH]; reflexivity. Qed.

(** *** directorForwardDPToNode *)

Lemma forward_not_ready dp node w :
  Hops dp = 0 -> cluster.Ready node = false ->
  directorForwardDPToNode dp node w
  = (Ok (dp, Some "directorForwardDPToNode: Node is not ready"), w).
Proof.
  intros Hh Hr. unfold directorForwardDPToNode.
  rewrite Hh, Hr. reflexivity.
Qed.

Lemma forward_ready dp node w :
  Hops dp = 0 -> cluster.Ready node = true ->
  directorForwardDPToNode dp node w
  = (Ok (setHops dp 1, None),
     setSnd (snd w ++ [cluster.NewMsg node (setHops dp 1)]) w).
Proof.
  intros Hh Hr. unfold directorForwardDPToNode.
  rewrite Hh, Hr. reflexivity.
Qed.

Lemma forward_seen dp node w :
  Hops dp <> 0 -> directorForwardDPToNode dp node w = (Ok (dp, None), w).
Proof.
  intros Hh. unfold directorForwardDPToNode.
  destruct (Z.eqb_spec (Hops dp) 0); [contradiction | reflexivity].
Qed.

(** C2. A call of [directorForwardDPToNode] puts a message on the send path
    only for a point whose hop count is 0 and a node that is ready; the
    point leaves with its hop count raised by exactly one, that is 1, which
    does not exceed 2; a point whose hop count is 1 or more is not sent. *)
Theorem forward_sends_only_fresh_points dp node w :
  exists sent,
    snd (directorForwardDPToNode dp node w).2 = snd w ++ sent
    /\ (forall m, m ∈ sent ->
          Hops dp = 0 /\ cluster.Ready node = true /\
          exists dp', cluster.Body m = cluster.Gob dp'
                      /\ Hops dp' = Hops dp + 1
                      /\ Hops dp' = 1
                      /\ Hops dp' <= 2
                      /\ (directorForwardDPToNode dp node w).1
                         = Ok (dp', None))
    /\ (1 <= Hops dp -> sent = [])
    /\ (cluster.Ready node = false -> sent = [])
    /\ (Hops dp = 0 -> cluster.Ready node = true -> length sent = 1%nat).
Proof.
  destruct (Z.eq_dec (Hops dp) 0) as [Hh|Hh].
  - destruct (cluster.Ready node) eqn:Hr.
    + exists [cluster.NewMsg node (setHops dp 1)].
      rewrite forward_ready by assumption. simpl.
      split; [reflexivity|]. split; [|split; [lia|split; [discriminate|reflexivity]]].
      intros m Hm. apply list_elem_of_singleton in Hm as ->.
      split; [assumption|]. split; [reflexivity|].
      exists (setHops dp 1). simpl. rewrite Hh.
      repeat split; lia.
    + exists []. rewrite forward_not_ready by assumption. simpl.
      rewrite app_nil_r. split; [reflexivity|].
      split; [intros m Hm; inversion Hm|]. split; [reflexivity|].
      split; [reflexivity | discriminate].
  - exists []. rewrite forward_seen by assumption. simpl.
    rewrite app_nil_r. split; [reflexivity|].
    split; [intros m Hm; inversion Hm|]. split; [reflexivity|].
    split; [reflexivity | contradiction].
Qed.

(** *** directorProcessDataPoint *)

(** C1 (as the code has it). After the buffered points are applied, if the
    handle's point count is above 0, [directorProcessDataPoint] calls the
    flusher exactly once on the handle's record before it returns the
    count, and it passes [false] as the blocking flag; otherwise it makes
    no flush call. *)
Theorem local_processing_flushes_without_blocking cds w :
  let after := (processIncoming cds).2 in
  (directorProcessDataPoint cds w).1 = Ok ((processIncoming cds).1.1, after)
  /\ flushes (trace (directorProcessDataPoint cds w).2)
     = flushes (trace w)
       ++ (if 0 <? PointCount (DbDataSourcer after)
           then [(DbDataSourcer after, false)] else [])
  /\ incoming after = [].
Proof.
  unfold directorProcessDataPoint, processIncoming.
  destruct (applyPoints (DbDataSourcer cds) (incoming cds) None) as [ds' err].
  cbn [fst Datatypes.snd setIncoming setDs DbDataSourcer incoming].
  destruct err as [e|];
    destruct (0 <? PointCount ds'); cbn;
    rewrite ?flushes_app, ?app_nil_r; cbn; rewrite ?app_nil_r; auto.
Qed.

(** *** directorProcessIncomingDP *)

(** C6. A point whose value is NaN is counted in [datapoints.total] and
    nothing else happens: the cache, the channels, the send path and the
    storage are untouched, no flush is requested, and the dropped, accepted
    and forwarded counters keep their values. *)
Theorem nan_point_is_only_counted debug dp clstr w :
  IsNaN (Value dp) = true ->
  directorProcessIncomingDP debug dp clstr w
  = (Ok tt, addTrace (StatCount "receiver.datapoints.total" 1) w)
  /\ let w' := (directorProcessIncomingDP debug dp clstr w).2 in
     trace w' = trace w ++ [StatCount "receiver.datapoints.total" 1]
     /\ dsc w' = dsc w /\ loaderCh w' = loaderCh w /\ dpCh w' = dpCh w
     /\ snd w' = snd w /\ db w' = db w
     /\ flushes (trace w') = flushes (trace w)
     /\ counter "receiver.datapoints.total" (trace w')
        = counter "receiver.datapoints.total" (trace w) + 1
     /\ counter "receiver.datapoints.dropped" (trace w')
        = counter "receiver.datapoints.dropped" (trace w)
     /\ counter "receiver.datapoints.accepted" (trace w')
        = counter "receiver.datapoints.accepted" (trace w)
     /\ counter "receiver.datapoints.forwarded" (trace w')
        = counter "receiver.datapoints.forwarded" (trace w).
Proof.
  intros Hnan.
  assert (Hrun : directorProcessIncomingDP debug dp clstr w
                 = (Ok tt, addTrace (StatCount "receiver.datapoints.total" 1) w)).
  { unfold directorProcessIncomingDP, bind, reportStatCount, emit.
    rewrite Hnan. reflexivity. }
  split; [exact Hrun|]. rewrite Hrun. cbn.
  rewrite flushes_app, !counter_app. cbn.
  rewrite app_nil_r. repeat split; lia.
Qed.

(** The per-destination counters are none of the [datapoints] ones. *)
Lemma forwarded_to_is_not_datapoints (suffix d : string) :
  String.eqb (String.append "receiver.datapoints." suffix)
             (String.append "receiver.forwarded_to." d) = false.
Proof. reflexivity. Qed.

(** The cache resolve depends on the cache alone. *)
Lemma resolve_nil_inv ident w :
  (getByIdentOrCreateEmpty ident w).1 = Ok None ->
  byIdent (dsc w) !! ident = None /\ finder (dsc w) ident = None.
Proof.
  unfold getByIdentOrCreateEmpty.
  destruct (byIdent (dsc w) !! ident); [discriminate|].
  destruct (finder (dsc w) ident); [discriminate|]. auto.
Qed.

(** C7. A point (with a value that is a number) whose identifier the cache
    resolves to nil raises [datapoints.dropped] by exactly 1; the accepted
    and forwarded counters keep their values; the point is put in no
    buffer (the cache is untouched), nothing goes to the loader, nothing
    is sent, flushed or stored. *)
Theorem unmatched_point_is_dropped_and_counted debug dp clstr w :
  IsNaN (Value dp) = false ->
  (getByIdentOrCreateEmpty (Ident dp) w).1 = Ok None ->
  let w' := (directorProcessIncomingDP debug dp clstr w).2 in
  (directorProcessIncomingDP debug dp clstr w).1 = Ok tt
  /\ counter "receiver.datapoints.dropped" (trace w')
     = counter "receiver.datapoints.dropped" (trace w) + 1
  /\ counter "receiver.datapoints.accepted" (trace w')
     = counter "receiver.datapoints.accepted" (trace w)
  /\ counter "receiver.datapoints.forwarded" (trace w')
     = counter "receiver.datapoints.forwarded" (trace w)
  /\ (forall d, counter (String.append "receiver.forwarded_to." d) (trace w')
                = counter (String.append "receiver.forwarded_to." d) (trace w))
  /\ counter "receiver.datapoints.total" (trace w')
     = counter "receiver.datapoints.total" (trace w) + 1
  /\ dsc w' = dsc w /\ loaderCh w' = loaderCh w /\ dpCh w' = dpCh w
  /\ snd w' = snd w /\ db w' = db w
  /\ flushes (trace w') = flushes (trace w).
Proof.
  intros Hnan Hres.
  apply resolve_nil_inv in Hres as [Hby Hfind].
  assert (Hrun : directorProcessIncomingDP debug dp clstr w
                 = (Ok tt,
                    let w1 := addTrace (StatCount "receiver.datapoints.dropped" 1)
                                (addTrace (StatCount "receiver.datapoints.total" 1) w) in
                    if debug then addTrace (Log (LogNoSpec (Ident dp))) w1 else w1)).
  { unfold directorProcessIncomingDP, bind, reportStatCount, emit,
      getByIdentOrCreateEmpty, logPrintf, emit, ret.
    rewrite Hnan. cbn. rewrite Hby, Hfind. destruct debug; reflexivity. }
  rewrite Hrun. destruct debug; cbn [fst Datatypes.snd];
    cbn [addTrace trace snd loaderCh dpCh dsc db];
    rewrite ?flushes_app, ?counter_app; cbn [flushes app];
    rewrite ?app_nil_r;
    (repeat split; try (cbn; lia));
    intros d; rewrite ?counter_app; cbn [counter];
    rewrite (forwarded_to_is_not_datapoints "total" d
             : String.eqb "receiver.datapoints.total" _ = false),
      (forwarded_to_is_not_datapoints "dropped" d
       : String.eqb "receiver.datapoints.dropped" _ = false); lia.
Qed.

(** *** The loop over a handle's buffer *)

(** Forwarding a buffer never panics; it only appends forward errors to
    the log and messages to the send path. *)
Lemma forwardIncoming_frame node dps f w :
  exists f' w' errs sent,
    forwardIncoming node dps f w = (Ok f', w')
    /\ trace w' = trace w ++ map (fun e => Log (LogForwardError e)) errs
    /\ snd w' = snd w ++ sent
    /\ (length errs + length sent <= length dps)%nat
    /\ loaderCh w' = loaderCh w /\ dpCh w' = dpCh w
    /\ dsc w' = dsc w /\ db w' = db w.
Proof.
  revert f w. induction dps as [|dp rest IH]; intros f w.
  - exists f, w, [], []. cbn. rewrite !app_nil_r. repeat split. lia.
  - cbn [forwardIncoming]. unfold bind.
    destruct (Z.eq_dec (Hops dp) 0) as [Hh|Hh];
      [destruct (cluster.Ready node) eqn:Hr|].
    + rewrite forward_ready by assumption. cbn [fst Datatypes.snd].
      destruct (IH (incr f)
                  (setSnd (snd w ++ [cluster.NewMsg node (setHops dp 1)]) w))
        as (f' & w' & errs & sent & Hrun & Ht & Hs & Hlen & Hrest).
      exists f', w', errs, (cluster.NewMsg node (setHops dp 1) :: sent).
      rewrite Hrun, Ht, Hs. cbn. rewrite <- app_assoc.
      repeat split; try apply Hrest. lia.
    + rewrite forward_not_ready by assumption. cbn [fst Datatypes.snd].
      unfold logPrintf, emit.
      destruct (IH f (addTrace (Log (LogForwardError
                        "directorForwardDPToNode: Node is not ready")) w))
        as (f' & w' & errs & sent & Hrun & Ht & Hs & Hlen & Hrest).
      exists f', w',
        ("directorForwardDPToNode: Node is not ready" :: errs), sent.
      rewrite Hrun, Ht, Hs. cbn. rewrite <- app_assoc.
      repeat split; try apply Hrest. lia.
    + rewrite forward_seen by assumption. cbn [fst Datatypes.snd].
      destruct (IH (incr f) w)
        as (f' & w' & errs & sent & Hrun & Ht & Hs & Hlen & Hrest).
      exists f', w', errs, sent.
      repeat split; try assumption; try apply Hrest. cbn. lia.
Qed.


(** *** directorProcessOrForward *)


(** C8. For a remote owner, after all buffered points were tried the
    handle's buffer is empty whatever the attempts gave, its aggregation
    state is the cleared one, and a warning is logged exactly when the
    point count was not zero at that moment. *)
Theorem remote_owner_clears_the_handle (c : clusterer) node d w :
  String.eqb (cluster.Name node) (cluster.Name (LocalNode c)) = false ->
  0 <= PointCount (DbDataSourcer (handle d)) ->
  exists d' w' errs sent,
    processOrForwardNode c node d w = (Ok d', w')
    /\ incoming (handle d') = []
    /\ DbDataSourcer (handle d')
       = ClearRRAs true (DbDataSourcer (handle d))
    /\ spec (handle d') = spec (handle d)
    /\ created (handle d') = created (handle d)
    /\ dest d' = cluster.SanitizedAddr node
    /\ accepted d' = accepted d
    /\ snd w' = snd w ++ sent
    /\ logged (trace w')
       = logged (trace w) ++ map LogForwardError errs
         ++ (if PointCount (DbDataSourcer (handle d)) =? 0 then []
             else [LogClearingDS (PointCount (DbDataSourcer (handle d)))])
    /\ (length errs <= length (incoming (handle d)))%nat.
Proof.
  intros Hremote Hpc. unfold processOrForwardNode. rewrite Hremote.
  unfold bind.
  destruct (forwardIncoming_frame node (incoming (handle d)) (forwarded d) w)
    as (f' & w1 & errs & sent & Hrun & Ht & Hs & Hlen & _).
  rewrite Hrun. cbn [setIncoming DbDataSourcer].
  destruct (Z.ltb_spec 0 (PointCount (DbDataSourcer (handle d))));
    destruct (Z.eqb_spec (PointCount (DbDataSourcer (handle d))) 0);
    try lia; cbn;
    eexists; eexists; exists errs, sent; (split; [reflexivity|]); cbn;
    rewrite ?Ht, ?logged_app, ?logged_forward_errors; cbn;
    rewrite ?app_nil_r;
    repeat split; try assumption; try lia;
    rewrite <- ?app_assoc; reflexivity.
Qed.

(** *** What a whole decision can return *)

Lemma directorProcessDataPoint_returns cds w :
  exists w',
    directorProcessDataPoint cds w
    = (Ok (Z.of_nat (length (incoming cds)), (processIncoming cds).2), w')
    /\ incoming (processIncoming cds).2 = []
    /\ snd w' = snd w.
Proof.
  unfold directorProcessDataPoint, processIncoming.
  destruct (applyPoints (DbDataSourcer cds) (incoming cds) None) as [ds' err].
  cbn [fst Datatypes.snd setIncoming setDs DbDataSourcer incoming].
  destruct err as [e|]; destruct (0 <? PointCount ds'); cbn;
    eexists; repeat split.
Qed.

(** Once the buffer is empty, the remaining owners add nothing to the
    forwarded count, and a local owner resets the accepted count to 0. *)
Lemma forNodes_drained (c : clusterer) nodes d w :
  incoming (handle d) = [] ->
  exists d' w',
    forNodes c nodes d w = (Ok d', w')
    /\ forwarded d' = forwarded d
    /\ (accepted d' = accepted d \/ accepted d' = 0)
    /\ incoming (handle d') = [].
Proof.
  revert d w. induction nodes as [|node rest IH]; intros d w Hnil.
  - exists d, w. cbn. auto.
  - cbn [forNodes]. unfold bind at 1. unfold processOrForwardNode.
    destruct (String.eqb (cluster.Name node) (cluster.Name (LocalNode c))).
    + destruct (directorProcessDataPoint_returns (handle d) w)
        as (w1 & Hrun & Hin & _).
      unfold bind at 1. rewrite Hrun, Hnil. cbn [fst Datatypes.snd ret length].
      destruct (IH {| accepted := Z.of_nat 0; forwarded := forwarded d;
                      dest := dest d; handle := (processIncoming (handle d)).2 |}
                   w1 Hin)
        as (d' & w' & Hrest & Hf & Ha & Hin').
      exists d', w'. cbn in Hf, Ha. repeat split; try assumption.
      right. destruct Ha; assumption.
    + rewrite Hnil. cbn [forwardIncoming]. unfold bind at 1, ret at 1.
      cbn [setIncoming DbDataSourcer].
      set (d1 := {| accepted := accepted d; forwarded := forwarded d;
                    dest := cluster.SanitizedAddr node;
                    handle := setDs (setIncoming (handle d) [])
                                (ClearRRAs true (DbDataSourcer (handle d))) |}).
      assert (Hin : incoming (handle d1) = []) by reflexivity.
      destruct (0 <? PointCount (DbDataSourcer (handle d)));
        unfold bind, logPrintf, emit, ret;
        match goal with
        | |- context [forNodes c rest ?dd ?ww] =>
            destruct (IH dd ww Hin) as (d' & w' & Hrest & Hf & Ha & Hin')
        end;
        exists d', w'; repeat split; assumption.
Qed.

(** With [processIncoming] as modelled, no decision returns both a positive
    accepted count and a positive forwarded count: whichever owner comes
    first empties the buffer. *)
Lemma decision_is_never_both (cds : cachedDs) (clstr : option clusterer) w :
  exists d w',
    directorProcessOrForward cds clstr w = (Ok d, w')
    /\ ~ (0 < accepted d /\ 0 < forwarded d).
Proof.
  unfold directorProcessOrForward. destruct clstr as [c|].
  - destruct (NodesForDistDatum c (DbDataSourcer cds)) as [|node rest].
    + eexists; eexists. split; [reflexivity|]. cbn. lia.
    + cbn [forNodes]. unfold bind at 1. unfold processOrForwardNode.
      cbn [handle forwarded accepted dest].
      destruct (String.eqb (cluster.Name node) (cluster.Name (LocalNode c))).
      * destruct (directorProcessDataPoint_returns cds w)
          as (w1 & Hrun & Hin & _).
        unfold bind at 1. rewrite Hrun. cbn [fst Datatypes.snd ret].
        destruct (forNodes_drained c rest
                    {| accepted := Z.of_nat (length (incoming cds));
                       forwarded := 0; dest := "";
                       handle := (processIncoming cds).2 |} w1 Hin)
          as (d' & w' & Hrest & Hf & _).
        exists d', w'. split; [assumption|]. cbn in Hf. lia.
      * destruct (forwardIncoming_frame node (incoming cds) 0 w)
          as (f' & w1 & errs & sent & Hrun & _).
        unfold bind at 1. rewrite Hrun. cbn [setIncoming DbDataSourcer].
        set (d1 := {| accepted := 0; forwarded := f';
                      dest := cluster.SanitizedAddr node;
                      handle := setDs (setIncoming cds [])
                                  (ClearRRAs true (DbDataSourcer cds)) |}).
        assert (Hin : incoming (handle d1) = []) by reflexivity.
        destruct (0 <? PointCount (DbDataSourcer cds));
          unfold bind, logPrintf, emit, ret;
          match goal with
          | |- context [forNodes c rest ?dd ?ww] =>
              destruct (forNodes_drained c rest dd ww Hin)
                as (d' & w' & Hrest & Hf & Ha & _)
          end;
          exists d', w'; (split; [assumption|]); cbn in Ha; lia.
  - destruct (directorProcessDataPoint_returns cds w) as (w1 & Hrun & _).
    unfold bind. rewrite Hrun. eexists; eexists.
    split; [reflexivity|]. cbn. lia.
Qed.

(** *** The statistics after a decision *)

Lemma datapoints_is_not_forwarded_to (suffix d : string) :
  String.eqb (String.append "receiver.forwarded_to." d)
             (String.append "receiver.datapoints." suffix) = false.
Proof. reflexivity. Qed.

(** The reporting statements on any pair of counts: when forwarded is
    above 0 the [datapoints.forwarded] and [forwarded_to.<dest>] counters
    are raised by forwarded and the accepted counter is left alone; when
    forwarded is not above 0 and accepted is above 0, the
    [datapoints.accepted] counter is raised by accepted.  Nothing else
    changes. *)
Lemma reportCounts_forwarded_or_else_accepted (a f : Z) (dst : string) w :
  let w' := (reportCounts a f dst w).2 in
  (reportCounts a f dst w).1 = Ok tt
  /\ trace w'
     = trace w
       ++ (if 0 <? f then
             [StatCount (String.append "receiver.forwarded_to." dst) f;
              StatCount "receiver.datapoints.forwarded" f]
           else if 0 <? a then [StatCount "receiver.datapoints.accepted" a]
           else [])
  /\ (0 < f ->
      counter "receiver.datapoints.forwarded" (trace w')
      = counter "receiver.datapoints.forwarded" (trace w) + f
      /\ counter (String.append "receiver.forwarded_to." dst) (trace w')
         = counter (String.append "receiver.forwarded_to." dst) (trace w) + f
      /\ counter "receiver.datapoints.accepted" (trace w')
         = counter "receiver.datapoints.accepted" (trace w))
  /\ (f <= 0 -> 0 < a ->
      counter "receiver.datapoints.accepted" (trace w')
      = counter "receiver.datapoints.accepted" (trace w) + a
      /\ counter "receiver.datapoints.forwarded" (trace w')
         = counter "receiver.datapoints.forwarded" (trace w))
  /\ snd w' = snd w /\ dsc w' = dsc w /\ loaderCh w' = loaderCh w
  /\ dpCh w' = dpCh w /\ db w' = db w.
Proof.
  unfold reportCounts, bind, reportStatCount, emit, ret.
  destruct (Z.ltb_spec 0 f) as [Hf|Hf];
    [|destruct (Z.ltb_spec 0 a) as [Ha|Ha]];
    cbn [fst Datatypes.snd addTrace trace snd loaderCh dpCh dsc db];
    rewrite <- ?app_assoc; cbn [app];
    (split; [reflexivity|]); (split; [rewrite ?app_nil_r; reflexivity|]);
    (split; [intros H1|split; [intros H1 H2|repeat split]]); try lia;
    rewrite !counter_app; cbn [counter].
  - rewrite String.eqb_refl.
    rewrite (datapoints_is_not_forwarded_to "forwarded" dst
             : String.eqb _ "receiver.datapoints.forwarded" = false).
    rewrite (datapoints_is_not_forwarded_to "accepted" dst
             : String.eqb _ "receiver.datapoints.accepted" = false).
    rewrite (forwarded_to_is_not_datapoints "forwarded" dst
             : String.eqb "receiver.datapoints.forwarded" _ = false).
    cbn. rewrite ?String.eqb_refl. repeat split; lia.
  - cbn. repeat split; lia.
Qed.

(** *** The event loop *)

(** C10. An item of an unexpected type is logged and then takes the path
    of the nil shutdown signal: [close(loaderCh)] is called, so the
    loader's input channel is closed afterwards; on a channel that was
    open the loop goes on.  Nothing is counted, sent or stored. *)
Theorem unexpected_item_closes_loader_channel debug clstr (ty : string) w :
  directorBody debug clstr (DpOut (Some (ItemOther ty))) w
  = directorBody debug clstr (DpOut (Some ItemNil))
      (addTrace (Log LogUnknownType) w)
  /\ directorBody debug clstr (DpOut (Some ItemNil)) w
     = (if closed (loaderCh w) then Panic "close of closed channel"
        else Ok Continue,
        (if closed (loaderCh w) then fun w0 => w0
         else setLoaderCh (mkChan true (buf (loaderCh w))))
          (addTrace (Log LogClosingLoader) w))
  /\ closed (loaderCh (directorBody debug clstr (DpOut (Some ItemNil)) w).2)
     = true
  /\ closed (loaderCh
               (directorBody debug clstr (DpOut (Some (ItemOther ty))) w).2)
     = true
  /\ logged (trace (directorBody debug clstr
                      (DpOut (Some (ItemOther ty))) w).2)
     = logged (trace w) ++ [LogUnknownType; LogClosingLoader].
Proof.
  unfold directorBody, bind, logPrintf, emit, ret, closeLoaderCh, chanClose.
  destruct w as [tr sent [isClosed items] dpc cache store0].
  destruct isClosed; cbn;
    rewrite ?logged_app; cbn; rewrite <- ?app_assoc;
    repeat split; reflexivity.
Qed.

(** *** The receive path *)

Lemma deliverable_iff (m : cluster.Msg) dp :
  deliverable m = Some dp <-> cluster.Decode m = inr dp /\ Hops dp <= 2.
Proof.
  unfold deliverable. destruct (cluster.Decode m) as [e|dp0].
  - split; [discriminate | intros [? _]; discriminate].
  - destruct (Z.leb_spec (Hops dp0) 2).
    + split; [intros [= ->]; auto | intros [[= ->] _]; reflexivity].
    + split; [discriminate | intros [[= ->] ?]; lia].
Qed.

Lemma dropLine_iff (m : cluster.Msg) :
  is_Some (dropLine m) <-> deliverable m = None.
Proof.
  unfold dropLine, deliverable.
  destruct (cluster.Decode m) as [e|dp0]; [|destruct (Hops dp0 <=? 2)];
    split; intros Hx; try reflexivity; try (eexists; reflexivity);
    try discriminate; destruct Hx; discriminate.
Qed.

Lemma incomingDPLoop_open (rcv : list cluster.Msg) w :
  closed (dpCh w) = false ->
  exists w',
    incomingDPLoop rcv w = (Ok tt, w')
    /\ dpCh w' = mkChan false (buf (dpCh w) ++ deliveredItems rcv)
    /\ trace w' = trace w ++ dropLog rcv
    /\ snd w' = snd w /\ loaderCh w' = loaderCh w
    /\ dsc w' = dsc w /\ db w' = db w.
Proof.
  revert w. induction rcv as [|m rest IH]; intros w Hopen.
  - exists w. cbn. rewrite !app_nil_r. repeat split.
    destruct (dpCh w) as [isClosed items]. cbn in *. congruence.
  - cbn [incomingDPLoop]. unfold deliveredItems, dropLog.
    cbn [omap list_omap]. unfold deliverable, dropLine.
    destruct (cluster.Decode m) as [e|dp].
    + unfold bind, logPrintf, emit.
      destruct (IH (addTrace (Log LogDecodeFailed) w) Hopen)
        as (w' & Hrun & Hd & Ht & Hrest).
      exists w'. rewrite Hrun, Hd, Ht. cbn. rewrite <- app_assoc. auto.
    + rewrite (Z.leb_antisym 2 (Hops dp)).
      destruct (2 <? Hops dp); cbn [negb fmap option_fmap option_map].
      * unfold bind, logPrintf, emit.
        destruct (IH (addTrace (Log (LogMaxHops 2)) w) Hopen)
          as (w' & Hrun & Hd & Ht & Hrest).
        exists w'. rewrite Hrun, Hd, Ht. cbn. rewrite <- app_assoc. auto.
      * unfold bind, sendDpCh, chanSend. rewrite Hopen.
        destruct (IH (setDpCh (mkChan false
                        (buf (dpCh w) ++ [ItemDP (Some dp)])) w) eq_refl)
          as (w' & Hrun & Hd & Ht & Hrest).
        exists w'. rewrite Hrun, Hd, Ht. cbn. rewrite <- app_assoc. auto.
Qed.

(** C5 (as the code has it). While the director's inbound channel is
    open, the worker on the receive path delivers a message's point if and
    only if the message decodes and the hop count of the point does not
    exceed 2; any other message is logged once and dropped, and the worker
    goes on with the next message. *)
Theorem receive_path_delivers_valid_points (rcv : list cluster.Msg) w :
  closed (dpCh w) = false ->
  let w' := (directorincomingDPMessages rcv w).2 in
  (directorincomingDPMessages rcv w).1 = Ok tt
  /\ dpCh w' = mkChan false (buf (dpCh w) ++ deliveredItems rcv)
  /\ trace w' = trace w ++ dropLog rcv
  /\ snd w' = snd w /\ loaderCh w' = loaderCh w
  /\ dsc w' = dsc w /\ db w' = db w
  /\ (forall dp, ItemDP (Some dp) ∈ deliveredItems rcv <->
                 exists m, m ∈ rcv /\ cluster.Decode m = inr dp
                           /\ Hops dp <= 2)
  /\ (forall m, is_Some (dropLine m) <->
                ~ exists dp, cluster.Decode m = inr dp /\ Hops dp <= 2)
  /\ (length (deliveredItems rcv) + length (dropLog (DS:=DS) rcv)
      = length rcv)%nat
  /\ (forall m l rest w0,
        dropLine m = Some l ->
        incomingDPLoop (m :: rest) w0
        = incomingDPLoop rest (addTrace (Log l) w0)).
Proof.
  intros Hopen.
  destruct (incomingDPLoop_open rcv w Hopen) as (w1 & Hrun & Hd & Ht & Hrest).
  unfold directorincomingDPMessages, recovering. rewrite Hrun.
  cbn [fst Datatypes.snd].
  split; [reflexivity|]. split; [exact Hd|]. split; [exact Ht|].
  destruct Hrest as (Hs & Hl & Hc & Hdb).
  repeat (split; [assumption|]).
  split; [|split; [|split]].
  - intros dp. unfold deliveredItems. rewrite list_elem_of_omap. split.
    + intros (m & Hin & Hm).
      destruct (deliverable m) as [dp0|] eqn:Hdel; [|discriminate].
      cbn in Hm. injection Hm as ->.
      apply deliverable_iff in Hdel. exists m. tauto.
    + intros (m & Hin & Hdec & Hh). exists m. split; [assumption|].
      rewrite (proj2 (deliverable_iff m dp)) by auto. reflexivity.
  - intros m. rewrite dropLine_iff. split.
    + intros Hnone (dp & Hdec & Hh).
      rewrite (proj2 (deliverable_iff m dp)) in Hnone by auto. discriminate.
    + intros Hno. destruct (deliverable m) as [dp|] eqn:Hdel; [|reflexivity].
      exfalso. apply Hno. exists dp. apply deliverable_iff. assumption.
  - clear. induction rcv as [|m rest IH]; [reflexivity|].
    unfold deliveredItems, dropLog in *. cbn [omap list_omap].
    pose proof (dropLine_iff m) as Hiff.
    destruct (deliverable m) as [dp|]; destruct (dropLine m) as [l|];
      cbn [fmap option_fmap option_map length].
    + destruct Hiff as [Hiff _].
      specialize (Hiff (ex_intro _ l eq_refl)). discriminate.
    + cbn. lia.
    + rewrite Nat.add_succ_r. lia.
    + destruct Hiff as [_ Hiff]. destruct (Hiff eq_refl). discriminate.
  - intros m l rest w0 Hl0. cbn [incomingDPLoop]. unfold dropLine in Hl0.
    destruct (cluster.Decode m) as [e|dp].
    + injection Hl0 as <-. reflexivity.
    + rewrite (Z.leb_antisym 2 (Hops dp)) in Hl0.
      destruct (2 <? Hops dp); [|discriminate].
      injection Hl0 as <-. reflexivity.
Qed.

(** *** The loader *)

(** C9. When materializing a handle fails with a storage error, the
    loader's iteration logs the error and ends normally: nothing is put on
    the director's channel, no created event is counted, the handle stays
    as it was, and the loop goes on with the next item.  The next point
    for the identifier makes the director submit the handle to the loader
    again, and the loader asks the storage again. *)
Theorem loader_survives_storage_error
    (p : ref) cds (sp : DSSpec) (e : error) (db' : DB) w :
  byIdent (dsc w) !! p = Some cds ->
  spec cds = Some sp ->
  FetchOrCreateDataSource (DsIdent (DbDataSourcer cds)) sp (db w)
  = (inl e, db') ->
  let w1 := (loaderBody (ItemCds (Some p)) w).2 in
  (loaderBody (ItemCds (Some p)) w).1 = Ok tt
  /\ trace w1 = trace w ++ [Log (LogLoaderDbError e)]
  /\ dpCh w1 = dpCh w
  /\ counter "receiver.created" (trace w1)
     = counter "receiver.created" (trace w)
  /\ dsc w1 = dsc w /\ db w1 = db'
  /\ snd w1 = snd w /\ loaderCh w1 = loaderCh w
  /\ (forall rest, loader (ItemCds (Some p) :: rest) w = loader rest w1)
  /\ (forall debug dp clstr w2,
        dsc w2 = dsc w1 -> closed (loaderCh w2) = false ->
        Ident dp = p -> IsNaN (Value dp) = false ->
        Id (DbDataSourcer cds) = 0 ->
        let w3 := (directorProcessIncomingDP debug dp clstr w2).2 in
        (directorProcessIncomingDP debug dp clstr w2).1 = Ok tt
        /\ buf (loaderCh w3) = buf (loaderCh w2) ++ [ItemCds (Some p)]
        /\ byIdent (dsc w3) !! p = Some (appendIncoming cds dp)
        /\ spec (appendIncoming cds dp) = Some sp
        /\ dpCh w3 = dpCh w2 /\ snd w3 = snd w2)
  /\ (forall dp w4 ds isNew db'',
        byIdent (dsc w4) !! p = Some (appendIncoming cds dp) ->
        closed (dpCh w4) = false ->
        FetchOrCreateDataSource (DsIdent (DbDataSourcer cds)) sp (db w4)
        = (inr (ds, isNew), db'') ->
        let w5 := (loaderBody (ItemCds (Some p)) w4).2 in
        (loaderBody (ItemCds (Some p)) w4).1 = Ok tt
        /\ buf (dpCh w5) = buf (dpCh w4) ++ [ItemCds (Some p)]
        /\ byIdent (dsc w5) !! p
           = Some {| DbDataSourcer := ds; incoming := incoming cds ++ [dp];
                     spec := None; created := isNew |}).
Proof.
  intros Hby Hspec Hfetch.
  assert (Hrun : loaderBody (ItemCds (Some p)) w
                 = (Ok tt, addTrace (Log (LogLoaderDbError e)) (setDb db' w))).
  { unfold loaderBody, bind, load. rewrite Hby, Hspec.
    unfold fetchOrCreateByIdent. rewrite Hfetch. reflexivity. }
  cbn zeta. rewrite Hrun. cbn [fst Datatypes.snd].
  cbn [addTrace setDb trace snd loaderCh dpCh dsc db].
  repeat (split; [reflexivity|]).
  split; [rewrite counter_app; cbn; lia|].
  repeat (split; [reflexivity|]).
  split; [|split].
  - intros rest. cbn [loader]. unfold bind at 1. rewrite Hrun. reflexivity.
  - intros debug dp clstr w2 Hdsc Hopen Hid Hnan Hzero.
    unfold directorProcessIncomingDP, bind, reportStatCount, emit.
    rewrite Hnan. unfold getByIdentOrCreateEmpty, load, store.
    cbn [addTrace dsc]. rewrite Hdsc, Hid, Hby. cbn [addTrace dsc].
    rewrite Hdsc, Hby. cbn [appendIncoming setIncoming DbDataSourcer].
    rewrite Hzero. cbn [Z.eqb]. unfold sendLoaderCh, chanSend.
    cbn [loaderCh setDsc addTrace]. rewrite Hopen. cbn.
    rewrite lookup_insert_eq, Hspec. repeat split.
  - intros dp w4 ds isNew db'' Hby4 Hopen Hfetch4.
    unfold loaderBody, bind, load. rewrite Hby4.
    cbn [appendIncoming setIncoming spec]. rewrite Hspec.
    unfold fetchOrCreateByIdent.
    cbn [appendIncoming setIncoming DbDataSourcer]. rewrite Hfetch4.
    unfold store, loaderDeliver, bind, Created, sendDpCh, chanSend,
      reportStatCount, emit, ret.
    destruct isNew; cbn; rewrite Hopen; cbn;
      rewrite lookup_insert_eq; repeat split.
Qed.

(** *** More on forwarding *)

Lemma iter_incr_small (n : nat) :
  Z.of_nat n < 2 ^ 63 -> Nat.iter n incr 0 = Z.of_nat n.
Proof.
  induction n as [|n IH]; intros Hn; [reflexivity|].
  rewrite Nat.iter_succ, IH by lia. unfold incr.
  rewrite wrap64_small by lia. lia.
Qed.

(** A node that is ready is sent the points that were never forwarded, in
    buffer order; every point of the buffer raises the count. *)
Lemma forwardIncoming_ready node dps f w :
  cluster.Ready node = true ->
  exists w',
    forwardIncoming node dps f w = (Ok (Nat.iter (length dps) incr f), w')
    /\ snd w' = snd w
                ++ map (fun dp => cluster.NewMsg node (setHops dp 1))
                     (filter (fun dp => Hops dp = 0) dps)
    /\ trace w' = trace w
    /\ loaderCh w' = loaderCh w /\ dpCh w' = dpCh w
    /\ dsc w' = dsc w /\ db w' = db w.
Proof.
  intros Hr. revert f w. induction dps as [|dp rest IH]; intros f w.
  - exists w. cbn. rewrite app_nil_r. repeat split.
  - cbn [forwardIncoming length]. unfold bind.
    rewrite Nat.iter_succ_r. rewrite filter_cons.
    destruct (decide (Hops dp = 0)) as [Hh|Hh].
    + rewrite forward_ready by assumption. cbn [fst Datatypes.snd].
      destruct (IH (incr f)
                  (setSnd (snd w ++ [cluster.NewMsg node (setHops dp 1)]) w))
        as (w' & Hrun & Hs & Hrest).
      exists w'. rewrite Hrun, Hs. cbn. rewrite <- app_assoc.
      repeat split; apply Hrest.
    + rewrite forward_seen by assumption. cbn [fst Datatypes.snd].
      destruct (IH (incr f) w) as (w' & Hrun & Hs & Hrest).
      exists w'. rewrite Hrun, Hs. repeat split; apply Hrest.
Qed.

(** X1. With one owner, remote and ready, the decision sends that node the
    buffered points whose hop count is 0, in buffer order and each with hop
    count 1; it counts every buffered point as forwarded, accepts none,
    names the node as destination and leaves the buffer empty. *)
Theorem ready_owner_gets_fresh_points_in_order (c : clusterer) node cds w :
  String.eqb (cluster.Name node) (cluster.Name (LocalNode c)) = false ->
  cluster.Ready node = true ->
  NodesForDistDatum c (DbDataSourcer cds) = [node] ->
  Z.of_nat (length (incoming cds)) < 2 ^ 63 ->
  exists d w',
    directorProcessOrForward cds (Some c) w = (Ok d, w')
    /\ snd w' = snd w
                ++ map (fun dp => cluster.NewMsg node (setHops dp 1))
                     (filter (fun dp => Hops dp = 0) (incoming cds))
    /\ forwarded d = Z.of_nat (length (incoming cds))
    /\ accepted d = 0
    /\ dest d = cluster.SanitizedAddr node
    /\ incoming (handle d) = []
    /\ counter "receiver.datapoints.accepted" (trace w')
       = counter "receiver.datapoints.accepted" (trace w).
Proof.
  intros Hremote Hr Howners Hlen.
  unfold directorProcessOrForward. rewrite Howners.
  cbn [forNodes]. unfold bind at 1. unfold processOrForwardNode.
  rewrite Hremote. cbn [handle forwarded accepted dest]. unfold bind at 1.
  destruct (forwardIncoming_ready node (incoming cds) 0 w Hr)
    as (w1 & Hrun & Hs & Ht & _).
  rewrite Hrun, iter_incr_small by assumption.
  cbn [setIncoming DbDataSourcer].
  destruct (0 <? PointCount (DbDataSourcer cds));
    unfold bind, logPrintf, emit, ret; cbn;
    eexists; eexists; (split; [reflexivity|]); cbn;
    rewrite ?Ht, ?counter_app; cbn; repeat split; try assumption; lia.
Qed.

(** Once the buffer is empty, owners that are all remote are sent nothing
    and leave the counts alone, but the last of them becomes the
    destination. *)
Lemma forNodes_remote_drained (c : clusterer) nodes d w :
  incoming (handle d) = [] ->
  Forall (fun n => String.eqb (cluster.Name n) (cluster.Name (LocalNode c))
                   = false) nodes ->
  exists d' w',
    forNodes c nodes d w = (Ok d', w')
    /\ snd w' = snd w
    /\ forwarded d' = forwarded d /\ accepted d' = accepted d
    /\ dest d' = List.last (map cluster.SanitizedAddr nodes) (dest d)
    /\ incoming (handle d') = [].
Proof.
  intros Hnil Hall. revert d w Hnil.
  induction Hall as [|node rest Hremote _ IH]; intros d w Hnil.
  - exists d, w. cbn. repeat split; assumption.
  - cbn [forNodes]. unfold bind at 1. unfold processOrForwardNode.
    rewrite Hremote, Hnil. cbn [forwardIncoming]. unfold bind at 1, ret at 1.
    cbn [setIncoming DbDataSourcer].
    set (d1 := {| accepted := accepted d; forwarded := forwarded d;
                  dest := cluster.SanitizedAddr node;
                  handle := setDs (setIncoming (handle d) [])
                              (ClearRRAs true (DbDataSourcer (handle d))) |}).
    assert (Hin : incoming (handle d1) = []) by reflexivity.
    assert (Hlast : forall x,
              List.last (map cluster.SanitizedAddr (node :: rest)) x
              = List.last (map cluster.SanitizedAddr rest) (dest d1)).
    { intros x. cbn [map dest d1]. apply last_cons_default. }
    destruct (0 <? PointCount (DbDataSourcer (handle d)));
      unfold bind, logPrintf, emit, ret;
      match goal with
      | |- context [forNodes c rest ?dd ?ww] =>
          destruct (IH dd ww Hin) as (d' & w' & Hrest & Hs & Hf & Ha & Hd & Hin')
      end;
      exists d', w'; rewrite Hlast; repeat split; assumption.
Qed.

(** X2. When several remote nodes own a handle, the buffered points go to
    the first of them only, yet the destination returned for the statistics
    is the address of the last one. *)
Theorem later_remote_owners_get_nothing_but_the_credit
    (c : clusterer) node rest cds w :
  NodesForDistDatum c (DbDataSourcer cds) = node :: rest ->
  Forall (fun n => String.eqb (cluster.Name n) (cluster.Name (LocalNode c))
                   = false) (node :: rest) ->
  exists d w' sent,
    directorProcessOrForward cds (Some c) w = (Ok d, w')
    /\ snd w' = snd w ++ sent
    /\ Forall (fun m => cluster.Dst m = Some node) sent
    /\ dest d = List.last (map cluster.SanitizedAddr (node :: rest)) ""
    /\ accepted d = 0
    /\ incoming (handle d) = [].
Proof.
  intros Howners Hall. apply Forall_cons in Hall as [Hremote Hall].
  unfold directorProcessOrForward. rewrite Howners.
  cbn [forNodes]. unfold bind at 1. unfold processOrForwardNode.
  rewrite Hremote. cbn [handle forwarded accepted dest]. unfold bind at 1.
  assert (Hsent : exists f' w1 sent,
            forwardIncoming node (incoming cds) 0 w = (Ok f', w1)
            /\ snd w1 = snd w ++ sent
            /\ Forall (fun m => cluster.Dst m = Some node) sent).
  { generalize 0 as f. revert w.
    induction (incoming cds) as [|dp dps IH]; intros w f.
    - exists f, w, []. cbn. rewrite app_nil_r. auto.
    - cbn [forwardIncoming]. unfold bind.
      destruct (Z.eq_dec (Hops dp) 0) as [Hh|Hh];
        [destruct (cluster.Ready node) eqn:Hr|].
      + rewrite forward_ready by assumption. cbn [fst Datatypes.snd].
        destruct (IH (setSnd (snd w ++ [cluster.NewMsg node (setHops dp 1)]) w)
                     (incr f)) as (f' & w1 & sent & Hrun & Hs & Hd).
        exists f', w1, (cluster.NewMsg node (setHops dp 1) :: sent).
        rewrite Hrun, Hs. cbn. rewrite <- app_assoc.
        repeat split. constructor; [reflexivity | assumption].
      + rewrite forward_not_ready by assumption. cbn [fst Datatypes.snd].
        unfold logPrintf, emit.
        destruct (IH (addTrace (Log (LogForwardError
                        "directorForwardDPToNode: Node is not ready")) w) f)
          as (f' & w1 & sent & Hrun & Hs & Hd).
        exists f', w1, sent. rewrite Hrun, Hs. auto.
      + rewrite forward_seen by assumption. cbn [fst Datatypes.snd].
        destruct (IH w (incr f)) as (f' & w1 & sent & Hrun & Hs & Hd).
        exists f', w1, sent. auto. }
  destruct Hsent as (f' & w1 & sent & Hrun & Hs & Hdst).
  rewrite Hrun. cbn [setIncoming DbDataSourcer].
  set (d1 := {| accepted := 0; forwarded := f';
                dest := cluster.SanitizedAddr node;
                handle := setDs (setIncoming cds [])
                            (ClearRRAs true (DbDataSourcer cds)) |}).
  assert (Hin : incoming (handle d1) = []) by reflexivity.
  assert (Hlast : List.last (map cluster.SanitizedAddr (node :: rest)) ""
                  = List.last (map cluster.SanitizedAddr rest) (dest d1)).
  { cbn [map dest d1]. apply last_cons_default. }
  destruct (0 <? PointCount (DbDataSourcer cds));
    unfold bind, logPrintf, emit, ret;
    match goal with
    | |- context [forNodes c rest ?dd ?ww] =>
        destruct (forNodes_remote_drained c rest dd ww Hin Hall)
          as (d' & w' & Hrest & Hs' & Hf & Ha & Hd & Hin')
    end;
    exists d', w', sent; rewrite Hlast, Hs';
    repeat split; try assumption.
Qed.

(** X3. A cluster in which the local node is the only owner of a handle
    decides exactly as no cluster at all. *)
Theorem sole_local_owner_is_like_no_cluster (c : clusterer) node cds w :
  NodesForDistDatum c (DbDataSourcer cds) = [node] ->
  String.eqb (cluster.Name node) (cluster.Name (LocalNode c)) = true ->
  directorProcessOrForward cds (Some c) w
  = directorProcessOrForward cds None w.
Proof.
  intros Howners Hlocal.
  unfold directorProcessOrForward. rewrite Howners.
  cbn [forNodes]. unfold bind at 1. unfold processOrForwardNode.
  rewrite Hlocal. cbn [handle forwarded accepted dest].
  unfold bind. destruct (directorProcessDataPoint cds w) as [[r|why] w1];
    reflexivity.
Qed.

(** *** What a decision touches *)

(** Forwarding a buffer: what is sent, and what is left alone. *)
Lemma forwardIncoming_sent node dps f w :
  exists f' w' tr sent,
    forwardIncoming node dps f w = (Ok f', w')
    /\ trace w' = trace w ++ tr
    /\ (forall name, counter name tr = 0)
    /\ snd w' = snd w ++ sent
    /\ Forall (fun m => exists dp,
                 m = cluster.NewMsg node (setHops dp 1)
                 /\ dp ∈ dps /\ Hops dp = 0 /\ cluster.Ready node = true)
         sent
    /\ loaderCh w' = loaderCh w /\ dpCh w' = dpCh w
    /\ dsc w' = dsc w /\ db w' = db w.
Proof.
  revert f w. induction dps as [|dp rest IH]; intros f w.
  - exists f, w, [], []. cbn. rewrite !app_nil_r. repeat split. constructor.
  - cbn [forwardIncoming]. unfold bind.
    destruct (Z.eq_dec (Hops dp) 0) as [Hh|Hh];
      [destruct (Bool.bool_dec (cluster.Ready node) true) as [Hr|Hr];
       [|apply not_true_is_false in Hr]|].
    + rewrite forward_ready by assumption. cbn [fst Datatypes.snd].
      destruct (IH (incr f)
                  (setSnd (snd w ++ [cluster.NewMsg node (setHops dp 1)]) w))
        as (f' & w' & tr & sent & Hrun & Ht & Hc & Hs & Hall & Hrest).
      exists f', w', tr, (cluster.NewMsg node (setHops dp 1) :: sent).
      rewrite Hrun, Ht, Hs. cbn. rewrite <- app_assoc.
      repeat split; try apply Hrest; try assumption.
      constructor.
      * exists dp. repeat split; try assumption. apply list_elem_of_here.
      * eapply Forall_impl; [exact Hall|].
        intros m (dp0 & -> & Hin & H0 & H1). exists dp0.
        repeat split; try assumption. apply list_elem_of_further, Hin.
    + rewrite forward_not_ready by assumption. cbn [fst Datatypes.snd].
      unfold logPrintf, emit.
      destruct (IH f (addTrace (Log (LogForwardError
                        "directorForwardDPToNode: Node is not ready")) w))
        as (f' & w' & tr & sent & Hrun & Ht & Hc & Hs & Hall & Hrest).
      exists f', w',
        (Log (LogForwardError "directorForwardDPToNode: Node is not ready")
         :: tr), sent.
      rewrite Hrun, Ht, Hs. cbn. rewrite <- app_assoc.
      repeat split; try apply Hrest; try assumption.
      eapply Forall_impl; [exact Hall|].
      intros m (dp0 & -> & Hin & H0 & H1). exists dp0.
      repeat split; try assumption. apply list_elem_of_further, Hin.
    + rewrite forward_seen by assumption. cbn [fst Datatypes.snd].
      destruct (IH (incr f) w)
        as (f' & w' & tr & sent & Hrun & Ht & Hc & Hs & Hall & Hrest).
      exists f', w', tr, sent.
      repeat split; try apply Hrest; try assumption.
      eapply Forall_impl; [exact Hall|].
      intros m (dp0 & -> & Hin & H0 & H1). exists dp0.
      repeat split; try assumption. apply list_elem_of_further, Hin.
Qed.

Lemma directorProcessDataPoint_frame cds w :
  exists w' tr,
    directorProcessDataPoint cds w
    = (Ok (Z.of_nat (length (incoming cds)), (processIncoming cds).2), w')
    /\ trace w' = trace w ++ tr
    /\ (forall name, counter name tr = 0)
    /\ snd w' = snd w
    /\ loaderCh w' = loaderCh w /\ dpCh w' = dpCh w
    /\ dsc w' = dsc w /\ db w' = db w.
Proof.
  unfold directorProcessDataPoint, processIncoming.
  destruct (applyPoints (DbDataSourcer cds) (incoming cds) None) as [ds' err].
  cbn [fst Datatypes.snd setIncoming setDs DbDataSourcer incoming].
  destruct err as [e|]; destruct (0 <? PointCount ds'); cbn;
    eexists; eexists; (split; [reflexivity|]); cbn;
    rewrite <- ?app_assoc; cbn;
    (split; [try reflexivity; symmetry; apply app_nil_r|]);
    repeat split.
Qed.

Lemma counter_app_zero (name : string) tr1 tr2 :
  counter name tr1 = 0 -> counter name tr2 = 0 ->
  counter name (tr1 ++ tr2) = 0.
Proof. intros H1 H2. rewrite counter_app. lia. Qed.

Lemma forNodes_frame (c : clusterer) nodes d w :
  exists d' w' tr sent,
    forNodes c nodes d w = (Ok d', w')
    /\ trace w' = trace w ++ tr
    /\ (forall name, counter name tr = 0)
    /\ snd w' = snd w ++ sent
    /\ Forall (fun m => exists dp node,
                 m = cluster.NewMsg node (setHops dp 1)
                 /\ Hops dp = 0
                 /\ node ∈ nodes
                 /\ cluster.Ready node = true
                 /\ String.eqb (cluster.Name node)
                      (cluster.Name (LocalNode c)) = false)
         sent
    /\ loaderCh w' = loaderCh w /\ dpCh w' = dpCh w
    /\ dsc w' = dsc w /\ db w' = db w.
Proof.
  revert d w. induction nodes as [|node rest IH]; intros d w.
  - exists d, w, [], []. cbn. rewrite !app_nil_r. repeat split. constructor.
  - cbn [forNodes]. unfold bind at 1. unfold processOrForwardNode.
    destruct (String.eqb (cluster.Name node) (cluster.Name (LocalNode c)))
      eqn:Hname.
    + destruct (directorProcessDataPoint_frame (handle d) w)
        as (w1 & tr1 & Hrun & Ht1 & Hc1 & Hs1 & Hl1 & Hd1 & Hdsc1 & Hdb1).
      unfold bind at 1. rewrite Hrun. cbn [fst Datatypes.snd ret].
      match goal with
      | |- context [forNodes c rest ?dd ?ww] =>
          destruct (IH dd ww)
            as (d' & w' & tr & sent & Hrest & Ht & Hc & Hs & Hall
                & Hl & Hd & Hdsc & Hdb)
      end.
      exists d', w', (tr1 ++ tr), sent.
      rewrite Hrest, Ht, Ht1, Hs, Hs1, Hl, Hl1, Hd, Hd1, Hdsc, Hdsc1, Hdb, Hdb1.
      rewrite <- app_assoc.
      repeat split; try (intros name; apply counter_app_zero; auto).
      eapply Forall_impl; [exact Hall|].
      intros m (dp & n & -> & H0 & Hin & H1 & H2). exists dp, n.
      repeat split; try assumption. apply list_elem_of_further, Hin.
    + destruct (forwardIncoming_sent node (incoming (handle d)) (forwarded d) w)
        as (f' & w1 & tr1 & sent1 & Hrun & Ht1 & Hc1 & Hs1 & Hall1
            & Hl1 & Hd1 & Hdsc1 & Hdb1).
      unfold bind at 1. rewrite Hrun. cbn [setIncoming DbDataSourcer].
      assert (Hall1' : Forall (fun m => exists dp n,
                 m = cluster.NewMsg n (setHops dp 1)
                 /\ Hops dp = 0
                 /\ n ∈ node :: rest
                 /\ cluster.Ready n = true
                 /\ String.eqb (cluster.Name n)
                      (cluster.Name (LocalNode c)) = false) sent1).
      { eapply Forall_impl; [exact Hall1|].
        intros m (dp & -> & _ & H0 & H1). exists dp, node.
        repeat split; try assumption. apply list_elem_of_here. }
      destruct (0 <? PointCount (DbDataSourcer (handle d)));
        unfold bind, logPrintf, emit, ret;
        match goal with
        | |- context [forNodes c rest ?dd ?ww] =>
            destruct (IH dd ww)
              as (d' & w' & tr & sent & Hrest & Ht & Hc & Hs & Hall
                  & Hl & Hd & Hdsc & Hdb)
        end;
        cbn [addTrace trace snd loaderCh dpCh dsc db] in *;
        [exists d', w',
           (tr1 ++ Log (LogClearingDS (PointCount (DbDataSourcer (handle d))))
                :: tr), (sent1 ++ sent)
        |exists d', w', (tr1 ++ tr), (sent1 ++ sent)];
        rewrite Hrest, Ht, Ht1, Hs, Hs1, Hl, Hl1, Hd, Hd1, Hdsc, Hdsc1,
          Hdb, Hdb1;
        rewrite <- ?app_assoc; cbn [app];
        (repeat split;
         try (intros name; apply counter_app_zero; cbn; auto));
        (apply Forall_app; split; [exact Hall1'|]);
        (eapply Forall_impl; [exact Hall|]);
        intros m (dp & n & -> & H0 & Hin & H1 & H2); exists dp, n;
        (repeat split; try assumption); apply list_elem_of_further, Hin.
Qed.

(** X4. A decision never fails; whatever the owners are, it reports no
    statistic itself and leaves the loader's channel, the director's
    channel, the cache and the storage alone; every message it puts on the
    send path carries a point with hop count 1 that had hop count 0 and is
    addressed to an owner that is ready and is not the local node. *)
Theorem decision_sends_hop_one_to_ready_remote_owners
    (cds : cachedDs) (clstr : option clusterer) w :
  exists d w' tr sent,
    directorProcessOrForward cds clstr w = (Ok d, w')
    /\ trace w' = trace w ++ tr
    /\ (forall name, counter name tr = 0)
    /\ snd w' = snd w ++ sent
    /\ Forall (fun m => exists dp node c,
                 clstr = Some c
                 /\ m = cluster.NewMsg node (setHops dp 1)
                 /\ cluster.Body m = cluster.Gob (setHops dp 1)
                 /\ Hops dp = 0 /\ Hops (setHops dp 1) = 1
                 /\ node ∈ NodesForDistDatum c (DbDataSourcer cds)
                 /\ cluster.Ready node = true
                 /\ String.eqb (cluster.Name node)
                      (cluster.Name (LocalNode c)) = false)
         sent
    /\ loaderCh w' = loaderCh w /\ dpCh w' = dpCh w
    /\ dsc w' = dsc w /\ db w' = db w.
Proof.
  unfold directorProcessOrForward. destruct clstr as [c|].
  - destruct (forNodes_frame c (NodesForDistDatum c (DbDataSourcer cds))
                {| accepted := 0; forwarded := 0; dest := ""; handle := cds |} w)
      as (d' & w' & tr & sent & Hrun & Ht & Hc & Hs & Hall & Hrest).
    exists d', w', tr, sent. repeat split; try apply Hrest; try assumption.
    eapply Forall_impl; [exact Hall|].
    intros m (dp & n & -> & H0 & Hin & H1 & H2). exists dp, n, c.
    repeat split; assumption.
  - destruct (directorProcessDataPoint_frame cds w)
      as (w1 & tr1 & Hrun & Ht1 & Hc1 & Hs1 & Hrest).
    unfold bind. rewrite Hrun. cbn [fst Datatypes.snd ret].
    eexists; exists w1, tr1, []. rewrite app_nil_r.
    repeat split; try apply Hrest; try assumption. constructor.
Qed.

Lemma directorProcessOrForward_quiet (cds : cachedDs)
    (clstr : option clusterer) w :
  exists d w' tr,
    directorProcessOrForward cds clstr w = (Ok d, w')
    /\ trace w' = trace w ++ tr
    /\ (forall name, counter name tr = 0)
    /\ loaderCh w' = loaderCh w /\ dpCh w' = dpCh w
    /\ dsc w' = dsc w /\ db w' = db w.
Proof.
  unfold directorProcessOrForward. destruct clstr as [c|].
  - destruct (forNodes_frame c (NodesForDistDatum c (DbDataSourcer cds))
                {| accepted := 0; forwarded := 0; dest := ""; handle := cds |} w)
      as (d' & w' & tr & sent & Hrun & Ht & Hc & Hs & Hall & Hrest).
    exists d', w', tr. repeat split; try apply Hrest; assumption.
  - destruct (directorProcessDataPoint_frame cds w)
      as (w1 & tr1 & Hrun & Ht1 & Hc1 & Hs1 & Hrest).
    unfold bind. rewrite Hrun. cbn [fst Datatypes.snd ret].
    eexists; exists w1, tr1. repeat split; try apply Hrest; assumption.
Qed.

(** The statistics after a decision never touch [datapoints.total] or
    [datapoints.dropped]. *)
Lemma reportCounts_other (a f : Z) (dst : string) (suffix : string) w :
  String.eqb "receiver.datapoints.accepted"
             (String.append "receiver.datapoints." suffix) = false ->
  String.eqb "receiver.datapoints.forwarded"
             (String.append "receiver.datapoints." suffix) = false ->
  (reportCounts a f dst w).1 = Ok tt
  /\ counter (String.append "receiver.datapoints." suffix)
       (trace (reportCounts a f dst w).2)
     = counter (String.append "receiver.datapoints." suffix) (trace w).
Proof.
  intros Ha Hf. unfold reportCounts, bind, reportStatCount, emit, ret.
  destruct (0 <? f); [|destruct (0 <? a)]; cbn [fst Datatypes.snd];
    (split; [reflexivity|]);
    cbn [addTrace trace]; rewrite ?counter_app; cbn [counter];
    rewrite ?Ha, ?Hf, ?datapoints_is_not_forwarded_to; lia.
Qed.

(** X5. Every call of [directorProcessIncomingDP] raises
    [datapoints.total] by exactly 1, whatever the point and however the
    call ends. *)
Theorem every_point_raises_total_by_one debug dp clstr w :
  counter "receiver.datapoints.total"
    (trace (directorProcessIncomingDP debug dp clstr w).2)
  = counter "receiver.datapoints.total" (trace w) + 1.
Proof.
  unfold directorProcessIncomingDP, bind at 1, reportStatCount at 1, emit at 1.
  set (w1 := addTrace (StatCount "receiver.datapoints.total" 1) w).
  assert (Hw1 : counter "receiver.datapoints.total" (trace w1)
                = counter "receiver.datapoints.total" (trace w) + 1).
  { subst w1. cbn [addTrace trace]. rewrite counter_app. cbn. lia. }
  destruct (IsNaN (Value dp)); [exact Hw1|].
  unfold bind at 1, getByIdentOrCreateEmpty.
  assert (Hafter : forall p cds0 w2,
            byIdent (dsc w2) !! p = Some cds0 ->
            counter "receiver.datapoints.total" (trace w2)
            = counter "receiver.datapoints.total" (trace w) + 1 ->
            counter "receiver.datapoints.total"
              (trace ((bind (load p) (fun cds0 =>
                 let cds := appendIncoming cds0 dp in
                 bind (store p cds) (fun _ =>
                   if Id (DbDataSourcer cds) =? 0
                   then sendLoaderCh (ItemCds (Some p))
                   else bind (directorProcessOrForward cds clstr) (fun d =>
                          bind (store p (handle d)) (fun _ =>
                            reportCounts (accepted d) (forwarded d) (dest d))))))
                      w2).2)
            = counter "receiver.datapoints.total" (trace w) + 1).
  { intros p cds0 w2 Hby Hw2. unfold bind at 1, load. rewrite Hby.
    unfold bind at 1, store.
    destruct (Id (DbDataSourcer (appendIncoming cds0 dp)) =? 0).
    - unfold sendLoaderCh, chanSend. cbn [setDsc loaderCh].
      destruct (closed (loaderCh w2)); cbn; exact Hw2.
    - unfold bind at 1.
      match goal with
      | |- context [directorProcessOrForward ?c ?cl ?ww] =>
          destruct (directorProcessOrForward_quiet c cl ww)
            as (d & w3 & tr & Hrun & Ht & Hc & _)
      end.
      rewrite Hrun. unfold bind at 1, store.
      match goal with
      | |- context [reportCounts ?a ?f ?dst ?ww] =>
          destruct (reportCounts_other a f dst "total" ww eq_refl eq_refl)
            as [_ Hcnt]
      end.
      change (String.append "receiver.datapoints." "total")
        with "receiver.datapoints.total" in Hcnt.
      rewrite Hcnt.
      cbn [setDsc trace]. rewrite Ht. cbn [setDsc trace].
      rewrite counter_app, Hc. lia. }
  destruct (byIdent (dsc w1) !! Ident dp) as [cds0|] eqn:Hby.
  - apply (Hafter (Ident dp) cds0 w1 Hby Hw1).
  - destruct (finder (dsc w1) (Ident dp)) as [sp|].
    + eapply Hafter; [|exact Hw1].
      cbn [setDsc dsc byIdent]. apply lookup_insert_eq.
    + unfold bind, reportStatCount, emit, logPrintf, emit, ret.
      destruct debug; cbn [fst Datatypes.snd addTrace trace];
        rewrite ?counter_app; cbn [counter String.eqb Ascii.eqb];
        rewrite ?counter_app in Hw1; cbn in *; lia.
Qed.

(** *** Points for a handle that is not loaded yet *)

Lemma unloaded_handle_step debug dp clstr (p : string) cds w :
  byIdent (dsc w) !! p = Some cds ->
  Id (DbDataSourcer cds) = 0 ->
  Ident dp = p -> IsNaN (Value dp) = false ->
  exists w1,
    directorProcessIncomingDP debug dp clstr w
    = (if closed (loaderCh w) then Panic "send on closed channel" else Ok tt,
       w1)
    /\ byIdent (dsc w1) !! p = Some (appendIncoming cds dp)
    /\ loaderCh w1
       = (if closed (loaderCh w) then loaderCh w
          else mkChan false (buf (loaderCh w) ++ [ItemCds (Some p)]))
    /\ trace w1 = trace w ++ [StatCount "receiver.datapoints.total" 1]
    /\ snd w1 = snd w /\ dpCh w1 = dpCh w /\ db w1 = db w.
Proof.
  intros Hby Hzero Hid Hnan.
  unfold directorProcessIncomingDP, bind, reportStatCount, emit.
  rewrite Hnan. unfold getByIdentOrCreateEmpty, load, store.
  cbn [addTrace dsc]. rewrite Hid, Hby. cbn [addTrace dsc]. rewrite Hby.
  cbn [appendIncoming setIncoming DbDataSourcer]. rewrite Hzero.
  cbn [Z.eqb]. unfold sendLoaderCh, chanSend. cbn [loaderCh setDsc addTrace].
  destruct (closed (loaderCh w)); eexists; (split; [reflexivity|]); cbn;
    rewrite lookup_insert_eq; repeat split.
Qed.

Lemma directorBody_point debug clstr dp w :
  directorBody debug clstr (DpOut (Some (ItemDP (Some dp)))) w
  = match directorProcessIncomingDP debug dp clstr w with
    | (Ok _, w') => (Ok Continue, w')
    | (Panic why, w') => (Panic why, w')
    end.
Proof.
  unfold directorBody, bind, ret. cbn.
  destruct (directorProcessIncomingDP debug dp clstr w) as [[u|why] w'];
    reflexivity.
Qed.

Lemma directorBody_signal debug clstr w :
  directorBody debug clstr (DpOut (Some ItemNil)) w
  = match chanClose (loaderCh w) with
    | Some ch => (Ok Continue,
                  setLoaderCh ch (addTrace (Log LogClosingLoader) w))
    | None => (Panic "close of closed channel",
               addTrace (Log LogClosingLoader) w)
    end.
Proof.
  unfold directorBody, bind, ret, logPrintf, emit, closeLoaderCh. cbn.
  destruct (chanClose (loaderCh w)); reflexivity.
Qed.

(** X6. While a handle is not loaded (its id is 0), the event loop puts
    every point that arrives for it at the end of the handle's buffer, in
    arrival order, and queues the handle for the loader once per point; it
    sends, flushes and stores nothing and goes on. *)
Theorem points_for_an_unloaded_handle_queue_up debug clstr
    (p : string) cds (dps : list incomingDP) w :
  byIdent (dsc w) !! p = Some cds ->
  Id (DbDataSourcer cds) = 0 ->
  closed (loaderCh w) = false ->
  Forall (fun dp => Ident dp = p /\ IsNaN (Value dp) = false) dps ->
  exists w',
    director debug clstr
      (map (fun dp => DpOut (Some (ItemDP (Some dp)))) dps) w
    = (Ok Continue, w')
    /\ byIdent (dsc w') !! p = Some (setIncoming cds (incoming cds ++ dps))
    /\ loaderCh w'
       = mkChan false (buf (loaderCh w)
                       ++ repeat (ItemCds (Some p)) (length dps))
    /\ snd w' = snd w /\ dpCh w' = dpCh w /\ db w' = db w
    /\ trace w' = trace w
                  ++ repeat (StatCount "receiver.datapoints.total" 1)
                       (length dps).
Proof.
  intros Hby Hzero Hopen Hall. revert cds w Hby Hzero Hopen.
  induction Hall as [|dp rest [Hid Hnan] _ IH]; intros cds w Hby Hzero Hopen.
  - exists w. cbn. rewrite !app_nil_r. repeat split.
    + rewrite Hby. destruct cds; reflexivity.
    + destruct (loaderCh w) as [isClosed items]. cbn in *. congruence.
  - cbn [map director]. unfold bind at 1. rewrite directorBody_point.
    destruct (unloaded_handle_step debug dp clstr p cds w Hby Hzero Hid Hnan)
      as (w1 & Hrun & Hby1 & Hl1 & Ht1 & Hs1 & Hd1 & Hdb1).
    rewrite Hopen in Hrun, Hl1. rewrite Hrun.
    destruct (IH (appendIncoming cds dp) w1 Hby1 Hzero)
      as (w' & Hrest & Hby' & Hl' & Hs' & Hd' & Hdb' & Ht').
    { rewrite Hl1. reflexivity. }
    exists w'. rewrite Hrest, Hby', Hl', Hs', Hd', Hdb', Ht', Hl1, Hs1, Hd1,
      Hdb1, Ht1.
    cbn [appendIncoming setIncoming incoming buf length repeat].
    rewrite <- !app_assoc. repeat split.
Qed.

(** X7. After the shutdown signal has closed the loader's channel, the
    next point for a handle that is not loaded makes the event loop panic
    on its send to that channel. *)
Theorem point_for_unloaded_handle_after_shutdown_panics debug clstr dp cds w :
  closed (loaderCh w) = false ->
  byIdent (dsc w) !! Ident dp = Some cds ->
  Id (DbDataSourcer cds) = 0 ->
  IsNaN (Value dp) = false ->
  (director debug clstr
     [DpOut (Some ItemNil); DpOut (Some (ItemDP (Some dp)))] w).1
  = Panic "send on closed channel".
Proof.
  intros Hopen Hby Hzero Hnan.
  cbn [director]. unfold bind at 1. rewrite directorBody_signal.
  unfold chanClose. rewrite Hopen. unfold bind at 1.
  rewrite directorBody_point.
  match goal with
  | |- context [directorProcessIncomingDP debug dp clstr ?ww] =>
      destruct (unloaded_handle_step debug dp clstr (Ident dp) cds ww)
        as (w1 & Hrun & _); [exact Hby|exact Hzero|reflexivity|exact Hnan|]
  end.
  cbn [setLoaderCh loaderCh closed] in Hrun. rewrite Hrun. reflexivity.
Qed.

(** X8. Two items in a row that are neither a point nor a handle (nil
    signals, nil pointers, values of another type) make the event loop
    panic: the second [close(loaderCh)] finds the channel closed. *)
Theorem second_shutdown_signal_panics debug clstr (x1 x2 : item) w :
  match x1 with ItemDP (Some _) | ItemCds (Some _) => False | _ => True end ->
  match x2 with ItemDP (Some _) | ItemCds (Some _) => False | _ => True end ->
  (director debug clstr [DpOut (Some x1); DpOut (Some x2)] w).1
  = Panic "close of closed channel".
Proof.
  intros H1 H2.
  destruct w as [tr sent [isClosed items] dpc cache store0].
  destruct x1 as [[dp1|]|[p1|]| |ty1]; try contradiction;
    destruct x2 as [[dp2|]|[p2|]| |ty2]; try contradiction;
    destruct isClosed; reflexivity.
Qed.

(** *** Membership changes *)

(** X9. A run of membership changes keeps the event loop going and only
    logs: one line for each change whose transition failed, nothing for a
    closed notification channel; counters, flushes, cache, channels, send
    path and storage are as before. *)
Theorem membership_changes_only_log debug clstr
    (changes : list (bool * option error)) w :
  exists w',
    director debug clstr (map (fun ch => ClusterChg ch.1 ch.2) changes) w
    = (Ok Continue, w')
    /\ logged (trace w')
       = logged (trace w)
         ++ omap (fun ch => match ch with
                            | (true, Some e) => Some (LogTransitionError e)
                            | _ => None
                            end) changes
    /\ (forall name, counter name (trace w') = counter name (trace w))
    /\ flushes (trace w') = flushes (trace w)
    /\ snd w' = snd w /\ loaderCh w' = loaderCh w /\ dpCh w' = dpCh w
    /\ dsc w' = dsc w /\ db w' = db w.
Proof.
  revert w. induction changes as [|[ok tr] rest IH]; intros w.
  - exists w. cbn. rewrite app_nil_r. repeat split.
  - cbn [map director fst Datatypes.snd]. unfold bind at 1.
    cbn [directorBody]. unfold bind at 1, ret at 1.
    destruct ok; [destruct tr as [e|]|];
      unfold logPrintf, emit, ret;
      match goal with
      | |- context [director debug clstr _ ?ww] =>
          destruct (IH ww) as (w' & Hrun & Hlog & Hc & Hf & Hrest)
      end;
      exists w'; rewrite Hrun, Hlog, Hf;
      cbn [addTrace trace snd loaderCh dpCh dsc db omap list_omap] in *;
      rewrite ?logged_app, ?flushes_app; cbn [logged flushes];
      rewrite <- ?app_assoc, ?app_nil_r; cbn [app];
      (repeat split; try apply Hrest);
      intros name; rewrite Hc, ?counter_app; cbn; lia.
Qed.

(** *** The receive worker on a closed channel *)

Lemma incomingDPLoop_closed (rcv : list cluster.Msg) w :
  closed (dpCh w) = true ->
  exists r w',
    incomingDPLoop rcv w = (r, w')
    /\ dpCh w' = dpCh w
    /\ snd w' = snd w /\ loaderCh w' = loaderCh w
    /\ dsc w' = dsc w /\ db w' = db w
    /\ exists pre post,
         rcv = pre ++ post
         /\ Forall (fun m => deliverable m = None) pre
         /\ trace w' = trace w ++ dropLog pre
         /\ match post with
            | [] => True
            | m :: _ => is_Some (deliverable m)
            end.
Proof.
  intros Hclosed. revert w Hclosed.
  induction rcv as [|m rest IH]; intros w Hclosed.
  - exists (Ok tt), w. cbn. repeat split. exists [], []. cbn.
    rewrite app_nil_r. repeat split; constructor.
  - destruct (deliverable m) as [dp|] eqn:Hdel.
    + cbn [incomingDPLoop].
      apply deliverable_iff in Hdel as [Hdec Hh]. rewrite Hdec.
      cbn zeta. destruct (Z.ltb_spec 2 (Hops dp)); [lia|].
      unfold bind, sendDpCh, chanSend. rewrite Hclosed.
      eexists; eexists. split; [reflexivity|].
      repeat split. exists [], (m :: rest). cbn. rewrite app_nil_r.
      repeat split; [constructor|].
      rewrite (proj2 (deliverable_iff m dp)) by auto. eexists; reflexivity.
    + pose proof (proj2 (dropLine_iff m) Hdel) as [l Hl].
      assert (Hstep : incomingDPLoop (m :: rest) w
                      = incomingDPLoop rest (addTrace (Log l) w)).
      { cbn [incomingDPLoop]. unfold dropLine in Hl.
        destruct (cluster.Decode m) as [e|dp].
        - injection Hl as <-. reflexivity.
        - rewrite (Z.leb_antisym 2 (Hops dp)) in Hl.
          destruct (2 <? Hops dp); [|discriminate].
          injection Hl as <-. reflexivity. }
      rewrite Hstep.
      destruct (IH (addTrace (Log l) w) Hclosed)
        as (r & w' & Hrun & Hd & Hs & Hlc & Hdsc & Hdb & pre & post & Hsplit
            & Hall & Ht & Hpost).
      exists r, w'. split; [exact Hrun|].
      repeat (split; [assumption|]).
      exists (m :: pre), post. rewrite Hsplit.
      split; [reflexivity|]. split; [constructor; assumption|].
      split; [|assumption].
      rewrite Ht. unfold dropLog. cbn [omap list_omap addTrace trace].
      rewrite Hl. cbn. rewrite <- app_assoc. reflexivity.
Qed.

(** X10. The worker on the receive path always ends normally.  When the
    director's inbound channel is closed it delivers nothing: it logs the
    messages it drops up to the first one that would be delivered, and
    stops there without reading the rest. *)
Theorem receive_worker_stops_at_a_closed_channel (rcv : list cluster.Msg) w :
  (directorincomingDPMessages rcv w).1 = Ok tt
  /\ (closed (dpCh w) = true ->
      let w' := (directorincomingDPMessages rcv w).2 in
      dpCh w' = dpCh w
      /\ snd w' = snd w /\ loaderCh w' = loaderCh w
      /\ dsc w' = dsc w /\ db w' = db w
      /\ exists pre post,
           rcv = pre ++ post
           /\ Forall (fun m => deliverable m = None) pre
           /\ trace w' = trace w ++ dropLog pre
           /\ match post with
              | [] => True
              | m :: _ => is_Some (deliverable m)
              end).
Proof.
  split.
  - unfold directorincomingDPMessages, recovering.
    destruct (incomingDPLoop rcv w) as [[u|why] w']; [destruct u|]; reflexivity.
  - intros Hclosed. cbn zeta. unfold directorincomingDPMessages, recovering.
    destruct (incomingDPLoop_closed rcv w Hclosed) as (r & w' & Hrun & Hrest).
    rewrite Hrun. destruct r as [u|why]; exact Hrest.
Qed.

(** *** The loader on handles that are loaded *)

Lemma loaderBody_loaded (p : string) cds w :
  byIdent (dsc w) !! p = Some cds ->
  spec cds = None ->
  closed (dpCh w) = false ->
  exists w1,
    loaderBody (ItemCds (Some p)) w = (Ok tt, w1)
    /\ dpCh w1 = mkChan false (buf (dpCh w) ++ [ItemCds (Some p)])
    /\ trace w1 = trace w
                  ++ (if Created cds
                      then [StatCount "receiver.created" 1] else [])
    /\ dsc w1 = dsc w /\ db w1 = db w
    /\ snd w1 = snd w /\ loaderCh w1 = loaderCh w.
Proof.
  intros Hby Hspec Hopen.
  unfold loaderBody, bind, load. rewrite Hby, Hspec.
  unfold loaderDeliver, bind, reportStatCount, emit, ret, sendDpCh, chanSend.
  destruct (Created cds); cbn [addTrace dpCh]; rewrite Hopen;
    eexists; (split; [reflexivity|]); cbn; rewrite ?app_nil_r; repeat split.
Qed.

(** X11. Handles that are already loaded (no specification left) pass the
    loader without any storage call: they reach the director's channel in
    the order they came, each one that reports [Created()] raises the
    created counter again, and when the input ends the loader logs and
    closes the director's channel. *)
Theorem loader_passes_loaded_handles_in_order (ps : list string) w :
  closed (dpCh w) = false ->
  Forall (fun p => exists cds,
            byIdent (dsc w) !! p = Some cds /\ spec cds = None) ps ->
  exists w',
    loader (map (fun p => ItemCds (Some p)) ps) w = (Ok tt, w')
    /\ dpCh w' = mkChan true (buf (dpCh w)
                              ++ map (fun p => ItemCds (Some p)) ps)
    /\ db w' = db w /\ dsc w' = dsc w
    /\ snd w' = snd w /\ loaderCh w' = loaderCh w
    /\ counter "receiver.created" (trace w')
       = counter "receiver.created" (trace w)
         + Z.of_nat (length (filter
              (fun p => Created <$> byIdent (dsc w) !! p = Some true) ps))
    /\ logged (trace w') = logged (trace w) ++ [LogLoaderClosed].
Proof.
  intros Hopen Hall. revert w Hopen Hall.
  induction ps as [|p rest IH]; intros w Hopen Hall.
  - cbn [map loader]. unfold bind, logPrintf, emit, closeDpCh, chanClose.
    cbn [addTrace dpCh]. rewrite Hopen. eexists. split; [reflexivity|].
    cbn. rewrite app_nil_r, counter_app, logged_app. cbn.
    repeat split; lia.
  - apply Forall_cons in Hall as [(cds & Hby & Hspec) Hall].
    cbn [map loader]. unfold bind at 1.
    destruct (loaderBody_loaded p cds w Hby Hspec Hopen)
      as (w1 & Hrun & Hd1 & Ht1 & Hdsc1 & Hdb1 & Hs1 & Hl1).
    rewrite Hrun.
    destruct (IH w1) as (w' & Hrest & Hd & Hdb & Hdsc & Hs & Hl & Hc & Hlog).
    { rewrite Hd1. reflexivity. }
    { rewrite Hdsc1. exact Hall. }
    exists w'.
    rewrite Hrest, Hd, Hdb, Hdsc, Hs, Hl, Hc, Hlog,
      Hd1, Hdb1, Hdsc1, Hs1, Hl1, Ht1.
    cbn [buf map]. rewrite <- app_assoc. cbn [app].
    rewrite filter_cons, Hby. cbn [fmap option_fmap option_map].
    rewrite counter_app, logged_app.
    destruct (Created cds) eqn:Hcr.
    + rewrite decide_True by reflexivity. cbn [length].
      cbn. rewrite app_nil_r. repeat split. lia.
    + rewrite decide_False by discriminate.
      cbn. rewrite !app_nil_r. repeat split. lia.
Qed.

(** X18. When the cluster names no owner for a loaded handle, the point is
    neither processed, forwarded nor dropped: it stays at the end of the
    handle's buffer, and no counter but [datapoints.total] moves. *)
Theorem no_owner_leaves_the_point_buffered debug dp (c : clusterer) cds w :
  IsNaN (Value dp) = false ->
  byIdent (dsc w) !! Ident dp = Some cds ->
  Id (DbDataSourcer cds) <> 0 ->
  NodesForDistDatum c (DbDataSourcer cds) = [] ->
  let r := directorProcessIncomingDP debug dp (Some c) w in
  r.1 = Ok tt
  /\ byIdent (dsc r.2) !! Ident dp = Some (appendIncoming cds dp)
  /\ trace r.2 = trace w ++ [StatCount "receiver.datapoints.total" 1]
  /\ snd r.2 = snd w /\ loaderCh r.2 = loaderCh w
  /\ dpCh r.2 = dpCh w /\ db r.2 = db w.
Proof.
  intros Hnan Hby Hid Howners. cbn zeta.
  unfold directorProcessIncomingDP, bind, reportStatCount, emit.
  rewrite Hnan. unfold getByIdentOrCreateEmpty, load, store.
  cbn [addTrace dsc]. rewrite Hby. cbn [addTrace dsc]. rewrite Hby.
  cbn [appendIncoming setIncoming DbDataSourcer].
  destruct (Z.eqb_spec (Id (DbDataSourcer cds)) 0) as [H0|_]; [contradiction|].
  unfold directorProcessOrForward.
  change (DbDataSourcer (appendIncoming cds dp)) with (DbDataSourcer cds).
  rewrite Howners.
  cbn [forNodes]. unfold ret, reportCounts. cbn.
  rewrite insert_insert_eq, lookup_insert_eq. repeat split.
Qed.

(** *** The statistics after a decision, at the two callers *)

(** A decision returns, reports nothing itself, and does not return two
    positive counts. *)
Lemma decision_returns (cds : cachedDs) (clstr : option clusterer) w :
  exists d w1,
    directorProcessOrForward cds clstr w = (Ok d, w1)
    /\ (forall name, counter name (trace w1) = counter name (trace w))
    /\ ~ (0 < accepted d /\ 0 < forwarded d).
Proof.
  destruct (directorProcessOrForward_quiet cds clstr w)
    as (d & w1 & tr & Hrun & Ht & Hc & _).
  destruct (decision_is_never_both cds clstr w) as (d' & w1' & Hrun' & Hnot).
  rewrite Hrun in Hrun'. injection Hrun' as <- <-.
  exists d, w1. split; [exact Hrun|]. split; [|exact Hnot].
  intros name. rewrite Ht, counter_app, Hc. lia.
Qed.

(** What the reporting statements add for a pair of counts that are not
    both positive. *)
Lemma reportCounts_not_both (a f : Z) (dst : string) w :
  ~ (0 < a /\ 0 < f) ->
  (reportCounts a f dst w).1 = Ok tt
  /\ (0 < a ->
      counter "receiver.datapoints.accepted" (trace (reportCounts a f dst w).2)
      = counter "receiver.datapoints.accepted" (trace w) + a)
  /\ (0 < f ->
      counter "receiver.datapoints.forwarded"
        (trace (reportCounts a f dst w).2)
      = counter "receiver.datapoints.forwarded" (trace w) + f
      /\ counter (String.append "receiver.forwarded_to." dst)
           (trace (reportCounts a f dst w).2)
         = counter (String.append "receiver.forwarded_to." dst) (trace w) + f).
Proof.
  intros Hnot.
  destruct (reportCounts_forwarded_or_else_accepted a f dst w)
    as (Hok & _ & Hfwd & Hacc & _).
  split; [exact Hok|]. split.
  - intros Ha. apply Hacc; lia.
  - intros Hf. destruct (Hfwd Hf) as (H1 & H2 & _). auto.
Qed.

(** The iteration of the event loop on a handle that comes from the
    loader. *)
Lemma directorBody_handle debug clstr (p : string) cds w d w1 :
  byIdent (dsc w) !! p = Some cds ->
  directorProcessOrForward cds clstr w = (Ok d, w1) ->
  directorBody debug clstr (DpOut (Some (ItemCds (Some p)))) w
  = (Ok Continue,
     (reportCounts (accepted d) (forwarded d) (dest d)
        (setDsc {| byIdent := <[p := handle d]> (byIdent (dsc w1));
                   finder := finder (dsc w1) |} w1)).2).
Proof.
  intros Hby Hrun.
  unfold directorBody, bind, ret, load, store. cbn.
  rewrite Hby, Hrun.
  match goal with
  | |- context [reportCounts ?a ?f ?dst ?ww] =>
      pose proof (proj1 (reportCounts_forwarded_or_else_accepted a f dst ww))
        as Hok;
      destruct (reportCounts a f dst ww) as [[u|why] w3]
  end; [reflexivity|discriminate].
Qed.

(** A point for a handle that is loaded: the decision is made at once. *)
Lemma directorProcessIncomingDP_loaded debug dp clstr cds w d w1 :
  IsNaN (Value dp) = false ->
  byIdent (dsc w) !! Ident dp = Some cds ->
  Id (DbDataSourcer cds) <> 0 ->
  directorProcessOrForward (appendIncoming cds dp) clstr
    (setDsc {| byIdent := <[Ident dp := appendIncoming cds dp]>
                            (byIdent (dsc w));
               finder := finder (dsc w) |}
       (addTrace (StatCount "receiver.datapoints.total" 1) w))
  = (Ok d, w1) ->
  directorProcessIncomingDP debug dp clstr w
  = (reportCounts (accepted d) (forwarded d) (dest d)
       (setDsc {| byIdent := <[Ident dp := handle d]> (byIdent (dsc w1));
                  finder := finder (dsc w1) |} w1)).
Proof.
  intros Hnan Hby Hid Hrun.
  unfold directorProcessIncomingDP, bind, reportStatCount, emit.
  rewrite Hnan. unfold getByIdentOrCreateEmpty, load, store.
  cbn [addTrace dsc]. rewrite Hby. cbn [addTrace dsc]. rewrite Hby.
  change (DbDataSourcer (appendIncoming cds dp)) with (DbDataSourcer cds).
  destruct (Z.eqb_spec (Id (DbDataSourcer cds)) 0) as [H0|_]; [contradiction|].
  cbn [addTrace dsc]. rewrite Hrun. reflexivity.
Qed.

(** C4. After every local-or-forward decision, at both places that make
    one (the event loop on a handle that comes from the loader, and
    [directorProcessIncomingDP] on a point for a loaded handle): whenever
    the decision returns accepted above 0, [datapoints.accepted] is raised
    by accepted, and whenever it returns forwarded above 0,
    [datapoints.forwarded] and [forwarded_to.<dest>] are raised by
    forwarded.  This covers every decision: none returns both counts
    positive. *)
Theorem every_decision_is_counted debug clstr (p : string) cds w :
  byIdent (dsc w) !! p = Some cds ->
  (exists d w1,
     directorProcessOrForward cds clstr w = (Ok d, w1)
     /\ ~ (0 < accepted d /\ 0 < forwarded d)
     /\ let w' := (directorBody debug clstr
                     (DpOut (Some (ItemCds (Some p)))) w).2 in
        (0 < accepted d ->
         counter "receiver.datapoints.accepted" (trace w')
         = counter "receiver.datapoints.accepted" (trace w) + accepted d)
        /\ (0 < forwarded d ->
            counter "receiver.datapoints.forwarded" (trace w')
            = counter "receiver.datapoints.forwarded" (trace w) + forwarded d
            /\ counter (String.append "receiver.forwarded_to." (dest d))
                 (trace w')
               = counter (String.append "receiver.forwarded_to." (dest d))
                   (trace w) + forwarded d))
  /\ (forall dp,
        Ident dp = p -> IsNaN (Value dp) = false ->
        Id (DbDataSourcer cds) <> 0 ->
        exists d w1,
          directorProcessOrForward (appendIncoming cds dp) clstr
            (setDsc {| byIdent := <[p := appendIncoming cds dp]>
                                    (byIdent (dsc w));
                       finder := finder (dsc w) |}
               (addTrace (StatCount "receiver.datapoints.total" 1) w))
          = (Ok d, w1)
          /\ ~ (0 < accepted d /\ 0 < forwarded d)
          /\ let w' := (directorProcessIncomingDP debug dp clstr w).2 in
             (0 < accepted d ->
              counter "receiver.datapoints.accepted" (trace w')
              = counter "receiver.datapoints.accepted" (trace w) + accepted d)
             /\ (0 < forwarded d ->
                 counter "receiver.datapoints.forwarded" (trace w')
                 = counter "receiver.datapoints.forwarded" (trace w)
                   + forwarded d
                 /\ counter (String.append "receiver.forwarded_to." (dest d))
                      (trace w')
                    = counter (String.append "receiver.forwarded_to." (dest d))
                        (trace w) + forwarded d)).
Proof.
  intros Hby. split.
  - destruct (decision_returns cds clstr w) as (d & w1 & Hrun & Hsame & Hnot).
    exists d, w1. split; [exact Hrun|]. split; [exact Hnot|]. cbn zeta.
    rewrite (directorBody_handle debug clstr p cds w d w1 Hby Hrun).
    cbn [Datatypes.snd].
    match goal with
    | |- context [reportCounts ?a ?f ?dst ?ww] =>
        destruct (reportCounts_not_both a f dst ww Hnot) as (_ & Hacc & Hfwd)
    end.
    cbn [setDsc trace] in Hacc, Hfwd.
    split; [intros Ha; specialize (Hacc Ha); rewrite Hsame in Hacc
           |intros Hf; destruct (Hfwd Hf) as [H1 H2];
            rewrite Hsame in H1, H2; split];
      assumption.
  - intros dp Hid Hnan Hzero. subst p.
    match goal with
    | |- context [directorProcessOrForward ?c clstr ?ww] =>
        destruct (decision_returns c clstr ww)
          as (d & w1 & Hrun & Hsame & Hnot)
    end.
    exists d, w1. split; [exact Hrun|]. split; [exact Hnot|]. cbn zeta.
    rewrite (directorProcessIncomingDP_loaded debug dp clstr cds w d w1
               Hnan Hby Hzero Hrun).
    match goal with
    | |- context [reportCounts ?a ?f ?dst ?ww] =>
        destruct (reportCounts_not_both a f dst ww Hnot) as (_ & Hacc & Hfwd)
    end.
    cbn [setDsc trace] in Hacc, Hfwd.
    assert (Hbefore : forall name,
              String.eqb "receiver.datapoints.total" name = false ->
              counter name (trace w1) = counter name (trace w)).
    { intros name Hname. rewrite Hsame. cbn [setDsc addTrace trace].
      rewrite counter_app. cbn [counter]. rewrite Hname. lia. }
    split; [intros Ha; specialize (Hacc Ha);
            rewrite (Hbefore "receiver.datapoints.accepted" eq_refl) in Hacc
           |intros Hf; destruct (Hfwd Hf) as [H1 H2];
            rewrite (Hbefore "receiver.datapoints.forwarded" eq_refl) in H1;
            rewrite (Hbefore _ (forwarded_to_is_not_datapoints "total"
                                  (dest d))) in H2;
            split];
      assumption.
Qed.

End Properties.
(** * The properties on concrete runs *)

Import Sample.

(** C1, as the claim words it, fails: one point is applied to a loaded
    handle, the point count is 1 afterwards, and the only flush call
    carries [false]; no call has the blocking flag set. *)
Lemma blocking_flush_counterexample :
  let cds := mem [point "host.mem" 0] in
  let r := directorProcessDataPoint cds w0 in
  0 < PointCount (DbDataSourcer (processIncoming cds).2)
  /\ ~ (exists d, (d, true) ∈ flushes (trace r.2)).
Proof.
  split; [reflexivity|].
  intros [d Hd].
  change (flushes _) with [(mkDs "host.mem" 7 [(10, one)], false)] in Hd.
  apply list_elem_of_singleton in Hd. discriminate.
Qed.


(** The reporting statements on counts that are both positive, a pair
    that no decision returns: the forwarded counters are raised and the
    accepted counter is not. *)
Example reportCounts_on_both_positive :
  let w' := (reportCounts 1 1 "10_0_0_2" w0).2 in
  ~ (counter "receiver.datapoints.accepted" (trace w')
     = counter "receiver.datapoints.accepted" (trace w0) + 1)
  /\ counter "receiver.datapoints.forwarded" (trace w')
     = counter "receiver.datapoints.forwarded" (trace w0) + 1.
Proof.
  split; [|reflexivity]. intros H. discriminate.
Qed.

(** C6 on a run: a NaN point for ["host.cpu"] on an empty cache. *)
Lemma nan_point_is_only_counted_witness :
  IsNaN (Value nanPoint) = true
  /\ directorProcessIncomingDP false nanPoint None w0
     = (Ok tt, addTrace (StatCount "receiver.datapoints.total" 1) w0).
Proof.
  split; [reflexivity|].
  exact (proj1 (nan_point_is_only_counted false nanPoint None w0 eq_refl)).
Defined.

(** C7 on a run: a point for ["other"], which no specification matches. *)
Lemma unmatched_point_is_dropped_and_counted_witness :
  IsNaN (Value (point "other" 0)) = false
  /\ (getByIdentOrCreateEmpty "other" w0).1 = Ok None
  /\ counter "receiver.datapoints.dropped"
       (trace (directorProcessIncomingDP true (point "other" 0) None w0).2)
     = counter "receiver.datapoints.dropped" (trace w0) + 1.
Proof.
  split; [reflexivity|]. split; [reflexivity|].
  exact (proj1 (proj2 (unmatched_point_is_dropped_and_counted
                         true (point "other" 0) None w0 eq_refl eq_refl))).
Defined.


(** C8 on a run: a remote, ready owner and a handle that still holds one
    aggregated point. *)
Lemma remote_owner_clears_the_handle_witness :
  let d := mkDecision 0 0 "" (busy [point "host.mem" 0]) in
  String.eqb (cluster.Name (remote true))
             (cluster.Name (LocalNode (owners [remote true]))) = false
  /\ 0 <= PointCount (DbDataSourcer (handle d))
  /\ exists d' w' errs sent,
       processOrForwardNode (owners [remote true]) (remote true) d w0
       = (Ok d', w')
       /\ incoming (handle d') = []
       /\ DbDataSourcer (handle d')
          = ClearRRAs true (DbDataSourcer (handle d))
       /\ spec (handle d') = spec (handle d)
       /\ created (handle d') = created (handle d)
       /\ dest d' = cluster.SanitizedAddr (remote true)
       /\ accepted d' = accepted d
       /\ snd w' = snd w0 ++ sent
       /\ logged (trace w')
          = logged (trace w0) ++ map LogForwardError errs
            ++ (if PointCount (DbDataSourcer (handle d)) =? 0 then []
                else [LogClearingDS (PointCount (DbDataSourcer (handle d)))])
       /\ (length errs <= length (incoming (handle d)))%nat.
Proof.
  split; [reflexivity|]. split; [cbn; lia|].
  apply (remote_owner_clears_the_handle (owners [remote true]) (remote true)
           (mkDecision 0 0 "" (busy [point "host.mem" 0])) w0).
  - reflexivity.
  - cbn. lia.
Defined.

(** C5 on a run: of three envelopes only the first is delivered. *)
Lemma receive_path_delivers_valid_points_witness :
  closed (dpCh w0) = false
  /\ dpCh (directorincomingDPMessages envelopes w0).2
     = mkChan false (buf (dpCh w0) ++ deliveredItems envelopes).
Proof.
  split; [reflexivity|].
  exact (proj1 (proj2 (receive_path_delivers_valid_points envelopes w0
                         eq_refl))).
Defined.

(** C9 on a run: the placeholder for ["host.cpu"] while the database cannot
    be reached. *)
Lemma loader_survives_storage_error_witness :
  let w := world [("host.cpu", cpu [point "host.cpu" 0])] false in
  byIdent (dsc w) !! "host.cpu" = Some (cpu [point "host.cpu" 0])
  /\ spec (cpu [point "host.cpu" 0]) = Some tt
  /\ FetchOrCreateDataSource
       (DsIdent (DbDataSourcer (cpu [point "host.cpu" 0]))) tt (db w)
     = (inl "database is unreachable", mkStorage false 1 [])
  /\ (loaderBody (ItemCds (Some "host.cpu")) w).1 = Ok tt
  /\ trace (loaderBody (ItemCds (Some "host.cpu")) w).2
     = trace w ++ [Log (LogLoaderDbError "database is unreachable")].
Proof.
  split; [reflexivity|]. split; [reflexivity|]. split; [reflexivity|].
  pose proof (loader_survives_storage_error "host.cpu"
                (cpu [point "host.cpu" 0]) tt "database is unreachable"
                (mkStorage false 1 [])
                (world [("host.cpu", cpu [point "host.cpu" 0])] false)
                eq_refl eq_refl eq_refl) as H.
  exact (conj (proj1 H) (proj1 (proj2 H))).
Defined.

(** Five fresh points for ["host.mem"], owned by a remote node that is
    ready: all five leave with hop count 1, nothing is accepted, and the
    handle's buffer is empty afterwards. *)
Example five_points_to_a_ready_owner :
  let dps := repeat (point "host.mem" 0) 5 in
  let r := directorProcessOrForward (mem dps) (Some (owners [remote true])) w0 in
  (exists d, r.1 = Ok d /\ forwarded d = 5 /\ accepted d = 0
             /\ dest d = "10_0_0_2" /\ incoming (handle d) = [])
  /\ snd r.2 = repeat (cluster.NewMsg (remote true) (point "host.mem" 1)) 5
  /\ trace r.2 = [].
Proof.
  split; [|split; reflexivity].
  eexists. split; [reflexivity|]. repeat split.
Qed.

(** The same five points while the owner is not ready: five errors are
    logged, nothing is sent and nothing is counted. *)
Example five_points_to_an_unready_owner :
  let dps := repeat (point "host.mem" 0) 5 in
  let r := directorProcessOrForward (mem dps) (Some (owners [remote false])) w0 in
  (exists d, r.1 = Ok d /\ forwarded d = 0 /\ accepted d = 0
             /\ incoming (handle d) = [])
  /\ snd r.2 = []
  /\ logged (trace r.2)
     = repeat (LogForwardError "directorForwardDPToNode: Node is not ready") 5.
Proof.
  split; [|split; reflexivity].
  eexists. split; [reflexivity|]. repeat split.
Qed.

(** Of the three envelopes the worker delivers the first and logs the other
    two. *)
Example three_envelopes :
  let r := directorincomingDPMessages envelopes w0 in
  buf (dpCh r.2) = [ItemDP (Some (point "host.mem" 1))]
  /\ logged (trace r.2) = [LogDecodeFailed; LogMaxHops 2].
Proof. split; reflexivity. Qed.

(** C5, as the claim words it, fails: the director's inbound channel is
    closed; the first envelope decodes to a point with hop count 1, yet the
    point is not delivered: the send panics, the worker recovers and ends,
    and the envelope after it, which does not decode, is neither read nor
    logged. *)
Lemma closed_inbound_channel_counterexample :
  let w := setDpCh (mkChan true []) w0 in
  let m := cluster.NewMsg local (point "host.mem" 1) in
  let r := directorincomingDPMessages envelopes w in
  m ∈ envelopes
  /\ cluster.Decode m = inr (point "host.mem" 1)
  /\ Hops (point "host.mem" 1) <= 2
  /\ ~ (ItemDP (Some (point "host.mem" 1)) ∈ buf (dpCh r.2))
  /\ ~ (LogDecodeFailed ∈ logged (trace r.2))
  /\ r.1 = Ok tt.
Proof.
  split; [apply list_elem_of_here|]. split; [reflexivity|].
  split; [discriminate|]. split; [|split; [|reflexivity]].
  - intros Hin. change (buf _) with (@nil item) in Hin. inversion Hin.
  - intros Hin. change (logged _) with (@nil logline) in Hin. inversion Hin.
Qed.


(** * Properties of the Graphite find handler *)

Lemma string_app_nil_r (s : string) : s +:+ "" = s.
Proof.
  induction s as [|ch s IH]; [reflexivity|].
  change (String ch (s +:+ "") = String ch s). congruence.
Qed.

Lemma string_app_assoc (s1 s2 s3 : string) :
  (s1 +:+ s2) +:+ s3 = s1 +:+ (s2 +:+ s3).
Proof.
  induction s1 as [|ch s1 IH]; [reflexivity|].
  change (String ch ((s1 +:+ s2) +:+ s3) = String ch (s1 +:+ (s2 +:+ s3))).
  congruence.
Qed.

Lemma elem_of_map {A B : Type} (f : A -> B) (l : list A) (y : B) :
  y ∈ map f l <-> exists x, y = f x /\ x ∈ l.
Proof.
  rewrite list_elem_of_In, in_map_iff. split.
  - intros (x & Hx & Hin). exists x. rewrite list_elem_of_In. auto.
  - intros (x & Hx & Hin). exists x. rewrite <- list_elem_of_In. auto.
Qed.

Lemma Split_nonempty (s : string) (sep : Ascii.ascii) : graphite.Split s sep <> [].
Proof.
  destruct s as [|ch rest]; cbn; [discriminate|].
  destruct (Ascii.eqb ch sep); [discriminate|].
  destruct (graphite.Split rest sep); discriminate.
Qed.

(** A string without the separator is its only part. *)
Lemma Split_without_sep (s : string) (sep : Ascii.ascii) :
  ~ In sep (list_ascii_of_string s) -> graphite.Split s sep = [s].
Proof.
  induction s as [|ch rest IH]; intros Hno; [reflexivity|].
  cbn in *. destruct (Ascii.eqb_spec ch sep) as [->|Hne]; [tauto|].
  rewrite IH by tauto. reflexivity.
Qed.

(** Splitting distributes over a separator. *)
Lemma Split_at_sep (pre post : string) (sep : Ascii.ascii) :
  graphite.Split (pre +:+ String sep post) sep
  = graphite.Split pre sep ++ graphite.Split post sep.
Proof.
  induction pre as [|ch pre IH].
  - change ("" +:+ String sep post) with (String sep post).
    cbn [graphite.Split app]. rewrite Ascii.eqb_refl. reflexivity.
  - change (String ch pre +:+ String sep post)
      with (String ch (pre +:+ String sep post)).
    cbn [graphite.Split]. rewrite IH.
    destruct (Ascii.eqb ch sep); [reflexivity|].
    pose proof (Split_nonempty pre sep) as Hne.
    destruct (graphite.Split pre sep); [contradiction|reflexivity].
Qed.

(** X12. The text shown for a node is the part of its name after the last
    dot; a name without a dot is shown whole. *)
Theorem suffix_is_what_follows_the_last_dot (pre post : string) :
  ~ In graphite.dot (list_ascii_of_string post) ->
  graphite.suffixOf (pre +:+ String graphite.dot post) = post
  /\ graphite.suffixOf post = post.
Proof.
  intros Hno. unfold graphite.suffixOf.
  rewrite Split_at_sep, (Split_without_sep post) by assumption.
  split; [|reflexivity].
  rewrite List.last_last. reflexivity.
Qed.

(** What [dupe] knows after the first loop has seen [nodes]. *)
Lemma dupe_knows_the_suffixes (nodes : list graphite.FsFindNode) (k : string) :
  default false
    ((fold_left graphite.uniqStep nodes (∅, [])).1 !! k) = true
  <-> k ∈ map (fun n => graphite.suffixOf (graphite.Name n)) nodes.
Proof.
  induction nodes as [|x l IH] using rev_ind.
  - cbn. rewrite lookup_empty. cbn. split; [discriminate|].
    intros H. inversion H.
  - rewrite fold_left_app, map_app. cbn [fold_left graphite.uniqStep fst map].
    rewrite elem_of_app, list_elem_of_singleton.
    destruct (decide (graphite.suffixOf (graphite.Name x) = k)) as [<-|Hne].
    + rewrite lookup_insert_eq. cbn. tauto.
    + rewrite lookup_insert_ne by assumption. rewrite IH.
      split; [tauto|]. intros [H|H]; [assumption|congruence].
Qed.

Lemma uniqNodes_snoc (nodes : list graphite.FsFindNode) (x : graphite.FsFindNode) :
  graphite.uniqNodes (nodes ++ [x])
  = graphite.uniqNodes nodes
    ++ (if decide (graphite.suffixOf (graphite.Name x)
                   ∈ map (fun n => graphite.suffixOf (graphite.Name n)) nodes)
        then [] else [x]).
Proof.
  unfold graphite.uniqNodes. rewrite fold_left_app.
  cbn [fold_left graphite.uniqStep Datatypes.snd].
  pose proof (dupe_knows_the_suffixes nodes
                (graphite.suffixOf (graphite.Name x))) as Hiff.
  destruct (default false
              ((fold_left graphite.uniqStep nodes (∅, [])).1
                 !! graphite.suffixOf (graphite.Name x))) eqn:Hd.
  - rewrite decide_True by (apply Hiff; reflexivity).
    rewrite app_nil_r. reflexivity.
  - rewrite decide_False; [reflexivity|].
    intros Hin. apply Hiff in Hin. discriminate.
Qed.

(** X13. A node is listed exactly when no node before it has the same
    text: of the series whose names end in the same word the find handler
    shows only the first. *)
Theorem find_lists_a_node_unless_its_text_was_seen
    (nodes : list graphite.FsFindNode) (x : graphite.FsFindNode) :
  graphite.uniqNodes (nodes ++ [x])
  = graphite.uniqNodes nodes
    ++ (if decide (graphite.suffixOf (graphite.Name x)
                   ∈ map (fun n => graphite.suffixOf (graphite.Name n)) nodes)
        then [] else [x]).
Proof.
  unfold graphite.uniqNodes. rewrite fold_left_app.
  cbn [fold_left graphite.uniqStep Datatypes.snd].
  pose proof (dupe_knows_the_suffixes nodes
                (graphite.suffixOf (graphite.Name x))) as Hseen.
  destruct (default false
              ((fold_left graphite.uniqStep nodes (∅, [])).1
                 !! graphite.suffixOf (graphite.Name x))) eqn:Hd.
  - rewrite decide_True by (apply Hseen; reflexivity).
    symmetry. apply app_nil_r.
  - rewrite decide_False; [reflexivity|].
    intros Hin. apply Hseen in Hin. discriminate.
Qed.

(** X14. The nodes listed are a selection of the nodes found, in their
    order; no two of them have the same text, and the text of every node
    found is the text of a listed one. *)
Theorem find_lists_each_text_once (nodes : list graphite.FsFindNode) :
  let text := fun n => graphite.suffixOf (graphite.Name n) in
  sublist (graphite.uniqNodes nodes) nodes
  /\ NoDup (map text (graphite.uniqNodes nodes))
  /\ (forall n, n ∈ nodes -> text n ∈ map text (graphite.uniqNodes nodes)).
Proof.
  cbn zeta. induction nodes as [|x l IH] using rev_ind.
  - cbn. repeat split; [constructor|constructor|].
    intros n Hn. inversion Hn.
  - destruct IH as (Hsub & Hnodup & Hcover).
    rewrite uniqNodes_snoc.
    assert (Hback : forall k,
              k ∈ map (fun n => graphite.suffixOf (graphite.Name n))
                    (graphite.uniqNodes l) ->
              k ∈ map (fun n => graphite.suffixOf (graphite.Name n)) l).
    { intros k Hk. apply elem_of_map in Hk as (n & -> & Hn).
      apply elem_of_map. exists n. split; [reflexivity|].
      eapply elem_of_sublist; eassumption. }
    destruct (decide (graphite.suffixOf (graphite.Name x)
                      ∈ map (fun n => graphite.suffixOf (graphite.Name n)) l))
      as [Hin|Hnin].
    + rewrite app_nil_r. split; [apply sublist_inserts_r, Hsub|].
      split; [exact Hnodup|].
      intros n Hn. apply elem_of_app in Hn as [Hn|Hn].
      * apply Hcover, Hn.
      * apply list_elem_of_singleton in Hn as ->.
        apply elem_of_map in Hin as (n & Heq & Hn).
        rewrite Heq. apply Hcover, Hn.
    + split; [apply sublist_app; [exact Hsub|reflexivity]|].
      rewrite map_app. cbn [map]. split.
      * apply NoDup_app. split; [exact Hnodup|]. split.
        -- intros k Hk Hx. apply list_elem_of_singleton in Hx as ->.
           apply Hnin, Hback, Hk.
        -- apply NoDup_singleton.
      * intros n Hn. apply elem_of_app.
        apply elem_of_app in Hn as [Hn|Hn].
        -- left. apply Hcover, Hn.
        -- right. apply list_elem_of_singleton in Hn as ->.
           apply list_elem_of_singleton. reflexivity.
Qed.

Lemma writeEntries_joins (n : Z) (uniq : list graphite.FsFindNode) :
  graphite.writeEntries n (n + Z.of_nat (length uniq)) uniq
  = String.concat ("," +:+ graphite.nl) (map graphite.entry uniq).
Proof.
  revert n. induction uniq as [|x l IH]; intros n; [reflexivity|].
  cbn [graphite.writeEntries map].
  destruct l as [|y l].
  - cbn [length]. destruct (Z.ltb_spec n (n + Z.of_nat 1 - 1)); [lia|].
    cbn [String.concat String.append]. apply string_app_nil_r.
  - destruct (Z.ltb_spec n (n + Z.of_nat (length (x :: y :: l)) - 1)) as [_|H];
      [|cbn [length] in H; lia].
    replace (n + Z.of_nat (length (x :: y :: l)))
      with ((n + 1) + Z.of_nat (length (y :: l))) by (cbn [length]; lia).
    rewrite IH. cbn [String.concat map]. reflexivity.
Qed.

(** X15. The body of the find response is an opening bracket, the objects
    of the listed nodes joined by a comma and a newline, with none after
    the last, and a closing bracket, each bracket on a line of its own. *)
Theorem find_body_joins_the_entries (nodes : list graphite.FsFindNode) :
  graphite.GraphiteMetricsFindHandler nodes
  = "[" +:+ graphite.nl
    +:+ String.concat ("," +:+ graphite.nl)
          (map graphite.entry (graphite.uniqNodes nodes))
    +:+ graphite.nl +:+ "]" +:+ graphite.nl.
Proof.
  unfold graphite.GraphiteMetricsFindHandler. cbn zeta.
  pose proof (writeEntries_joins 0 (graphite.uniqNodes nodes)) as H.
  rewrite Z.add_0_l in H. rewrite H. reflexivity.
Qed.

(** * Properties of the render body *)

Section RenderProperties.

Variable fmtFloat : spec_float -> string.
Variable fmtInt : Z -> string.

Local Abbreviation writePoint := (graphite.writePoint fmtFloat fmtInt).
Local Abbreviation writePoints := (graphite.writePoints fmtFloat fmtInt).
Local Abbreviation writeElement := (graphite.writeElement fmtFloat fmtInt).
Local Abbreviation writeElements := (graphite.writeElements fmtFloat fmtInt).

Lemma string_app_nil_l (s : string) : "" +:+ s = s.
Proof. reflexivity. Qed.

Lemma incr_small (n : Z) : 0 <= n < 2 ^ 63 - 1 -> incr n = n + 1.
Proof. intros Hn. unfold incr. apply wrap64_small. lia. Qed.

(** After the first point that is written, every point that is written is
    preceded by a comma. *)
Lemma writePoints_later (n : Z) (points : list graphite.dataPoint) :
  1 <= n -> n + Z.of_nat (length points) < 2 ^ 63 ->
  writePoints n points
  = fold_right (fun dp acc => "," +:+ writePoint dp +:+ acc) ""
      (filter (fun dp => 0 < graphite.t dp) points).
Proof.
  revert n. induction points as [|dp rest IH]; intros n Hn Hlen;
    [reflexivity|].
  cbn [graphite.writePoints]. rewrite filter_cons. cbn [length] in Hlen.
  destruct (Z.ltb_spec 0 (graphite.t dp)) as [Ht|Ht].
  - rewrite decide_True by assumption.
    destruct (Z.ltb_spec 0 n); [|lia].
    rewrite incr_small by lia. rewrite IH by lia. reflexivity.
  - rewrite decide_False by lia. apply IH; lia.
Qed.

Lemma concat_comma (x : string) (xs : list string) :
  String.concat "," (x :: xs)
  = x +:+ fold_right (fun y acc => "," +:+ y +:+ acc) "" xs.
Proof.
  revert x. induction xs as [|y ys IH]; intros x.
  - cbn [String.concat fold_right]. symmetry. apply string_app_nil_r.
  - change (String.concat "," (x :: y :: ys))
      with (x +:+ "," +:+ String.concat "," (y :: ys)).
    rewrite IH. reflexivity.
Qed.

Lemma commas_of_map (points : list graphite.dataPoint) :
  fold_right (fun y acc => "," +:+ y +:+ acc) "" (map writePoint points)
  = fold_right (fun dp acc => "," +:+ writePoint dp +:+ acc) "" points.
Proof.
  induction points as [|dp rest IH]; [reflexivity|].
  cbn [map fold_right]. rewrite IH. reflexivity.
Qed.

(** X16. For one series the render handler writes the points whose time
    is above 0, in order and separated by commas, with no comma before the
    first or after the last; a value that is NaN or infinite is written as
    null. *)
Theorem render_writes_the_timed_points (points : list graphite.dataPoint) :
  Z.of_nat (length points) < 2 ^ 63 ->
  writePoints 0 points = graphite.joinPoints fmtFloat fmtInt points
  /\ (forall dp,
        IsNaN (graphite.v dp) = true \/ graphite.IsInf (graphite.v dp) = true ->
        writePoint dp = "[null, " +:+ fmtInt (graphite.t dp) +:+ "]").
Proof.
  intros Hlen. split.
  - unfold graphite.joinPoints.
    induction points as [|dp rest IH]; [reflexivity|].
    cbn [graphite.writePoints]. rewrite filter_cons. cbn [length] in Hlen.
    destruct (Z.ltb_spec 0 (graphite.t dp)) as [Ht|Ht].
    + rewrite decide_True by assumption. cbn [map].
      rewrite concat_comma. cbn [Z.ltb Z.compare].
      rewrite string_app_nil_l, incr_0, writePoints_later by lia.
      rewrite commas_of_map. reflexivity.
    + rewrite decide_False by lia. apply IH. lia.
  - intros dp Hv. unfold graphite.writePoint.
    destruct Hv as [-> | ->]; [reflexivity|].
    rewrite orb_true_r. reflexivity.
Qed.

(** Elements that are all followed by more. *)
Lemma writeElements_app (es1 es2 : list graphite.element) :
  es2 <> [] ->
  writeElements (es1 ++ es2)
  = fold_right (fun e acc => writeElement true e +:+ acc) "" es1
    +:+ writeElements es2.
Proof.
  intros Hne. induction es1 as [|e rest IH]; [reflexivity|].
  cbn [app graphite.writeElements fold_right].
  rewrite bool_decide_eq_false_2 by (destruct rest; [assumption|discriminate]).
  cbn [negb]. rewrite IH, string_app_assoc. reflexivity.
Qed.

(** The series of one target, when more targets follow. *)
Lemma writeSeries_more (tn lenTargets nn : Z)
    (target : list graphite.graphiteSeries) :
  (tn <? lenTargets - 1) = true ->
  0 <= nn -> nn + Z.of_nat (length target) < 2 ^ 63 ->
  forall lenTarget,
    graphite.writeSeries fmtFloat fmtInt tn lenTargets nn lenTarget target
    = fold_right (fun e acc => writeElement true e +:+ acc) ""
        (map graphite.OfSeries target).
Proof.
  intros Hmore. revert nn. induction target as [|s rest IH];
    intros nn Hnn Hlen lenTarget; [reflexivity|].
  cbn [graphite.writeSeries map fold_right graphite.writeElement].
  cbn [length] in Hlen.
  rewrite Hmore, orb_true_r, incr_small by lia.
  rewrite IH by lia. rewrite !string_app_assoc. reflexivity.
Qed.

(** The series of the last target. *)
Lemma writeSeries_last (tn lenTargets nn : Z)
    (target : list graphite.graphiteSeries) :
  (tn <? lenTargets - 1) = false ->
  0 <= nn -> nn + Z.of_nat (length target) < 2 ^ 63 ->
  graphite.writeSeries fmtFloat fmtInt tn lenTargets nn
    (nn + Z.of_nat (length target)) target
  = writeElements (map graphite.OfSeries target).
Proof.
  intros Hlast. revert nn. induction target as [|s rest IH];
    intros nn Hnn Hlen; [reflexivity|].
  cbn [graphite.writeSeries map graphite.writeElements graphite.writeElement].
  cbn [length] in Hlen |- *. rewrite Hlast, orb_false_r, incr_small by lia.
  replace (nn + Z.of_nat (S (length rest)))
    with ((nn + 1) + Z.of_nat (length rest)) by lia.
  rewrite IH by lia.
  replace (nn <? nn + 1 + Z.of_nat (length rest) - 1)
    with (negb (bool_decide (map graphite.OfSeries rest = []))).
  - rewrite !string_app_assoc. reflexivity.
  - destruct rest as [|s' rest'].
    + cbn. symmetry. apply Z.ltb_ge. lia.
    + rewrite bool_decide_eq_false_2 by discriminate.
      cbn [negb length]. symmetry. apply Z.ltb_lt. lia.
Qed.

Lemma elementsOf_nonempty (target : list graphite.graphiteSeries) :
  graphite.elementsOf target <> [].
Proof. destruct target; discriminate. Qed.

Lemma writeTargets_elements (tn : Z)
    (targets : list (list graphite.graphiteSeries)) :
  Forall (fun target => Z.of_nat (length target) < 2 ^ 63) targets ->
  graphite.writeTargets fmtFloat fmtInt tn
    (tn + Z.of_nat (length targets)) targets
  = writeElements (concat (map graphite.elementsOf targets)).
Proof.
  intros Hall. revert tn. induction Hall as [|target rest Hlen _ IH];
    intros tn; [reflexivity|].
  cbn [graphite.writeTargets map concat].
  replace (tn + Z.of_nat (length (target :: rest)))
    with ((tn + 1) + Z.of_nat (length rest)) by (cbn [length]; lia).
  rewrite IH. destruct rest as [|target' rest'].
  - cbn [length map concat]. rewrite app_nil_r.
    assert (Hlast : (tn <? tn + 1 + Z.of_nat 0 - 1) = false)
      by (apply Z.ltb_ge; lia).
    rewrite Hlast. destruct target as [|s ss].
    + reflexivity.
    + destruct (Z.eqb_spec (Z.of_nat (length (s :: ss))) 0) as [H0|_];
        [cbn [length] in H0; lia|].
      rewrite string_app_nil_l.
      pose proof (writeSeries_last tn (tn + 1 + Z.of_nat 0) 0 (s :: ss)
                    Hlast ltac:(lia) ltac:(lia)) as Hs.
      rewrite Z.add_0_l in Hs. rewrite Hs.
      cbn [graphite.writeTargets]. rewrite string_app_nil_r. reflexivity.
  - assert (Hmore : (tn <? tn + 1 + Z.of_nat (length (target' :: rest')) - 1)
                    = true) by (apply Z.ltb_lt; cbn [length]; lia).
    rewrite Hmore, writeElements_app.
    2:{ cbn [map concat]. intros Hnil. apply app_eq_nil in Hnil as [Hnil _].
        exact (elementsOf_nonempty target' Hnil). }
    destruct target as [|s ss].
    + reflexivity.
    + destruct (Z.eqb_spec (Z.of_nat (length (s :: ss))) 0) as [H0|_];
        [cbn [length] in H0; lia|].
      rewrite string_app_nil_l.
      rewrite (writeSeries_more tn _ 0 (s :: ss) Hmore) by lia.
      reflexivity.
Qed.

(** X17. The render body is a bracketed list of elements, one for each
    series of each target and one object without a name for each target
    that gave no series, in order; an element is followed by a comma
    exactly when another element follows it. *)
Theorem render_separates_the_elements
    (targets : list (list graphite.graphiteSeries)) :
  Forall (fun target => Z.of_nat (length target) < 2 ^ 63) targets ->
  graphite.renderBody fmtFloat fmtInt targets
  = "[" +:+ writeElements (concat (map graphite.elementsOf targets))
    +:+ "]" +:+ graphite.nl.
Proof.
  intros Hall. unfold graphite.renderBody.
  pose proof (writeTargets_elements 0 targets Hall) as H.
  rewrite Z.add_0_l in H. rewrite H. reflexivity.
Qed.

End RenderProperties.

(** * The further properties on concrete runs *)

(** X1 on a run: two fresh points and one that was forwarded before. *)
Lemma ready_owner_gets_fresh_points_in_order_witness :
  let cds := mem [point "host.mem" 0; point "host.mem" 1; point "host.mem" 0] in
  String.eqb (cluster.Name (remote true))
             (cluster.Name (LocalNode (owners [remote true]))) = false
  /\ cluster.Ready (remote true) = true
  /\ NodesForDistDatum (owners [remote true]) (DbDataSourcer cds)
     = [remote true]
  /\ Z.of_nat (length (incoming cds)) < 2 ^ 63
  /\ exists d w',
       directorProcessOrForward cds (Some (owners [remote true])) w0
       = (Ok d, w')
       /\ forwarded d = 3
       /\ snd w' = repeat (cluster.NewMsg (remote true) (point "host.mem" 1)) 2.
Proof.
  split; [reflexivity|]. split; [reflexivity|]. split; [reflexivity|].
  split; [reflexivity|].
  destruct (ready_owner_gets_fresh_points_in_order (owners [remote true])
              (remote true)
              (mem [point "host.mem" 0; point "host.mem" 1; point "host.mem" 0])
              w0 eq_refl eq_refl eq_refl eq_refl)
    as (d & w' & Hrun & Hs & Hf & _).
  exists d, w'. split; [exact Hrun|]. split; [exact Hf|exact Hs].
Defined.

(** X2 on a run: two remote owners. *)
Lemma later_remote_owners_get_nothing_but_the_credit_witness :
  let c := owners [remote true; far] in
  let cds := mem [point "host.mem" 0] in
  NodesForDistDatum c (DbDataSourcer cds) = [remote true; far]
  /\ Forall (fun n => String.eqb (cluster.Name n)
                        (cluster.Name (LocalNode c)) = false)
       [remote true; far]
  /\ exists d w' sent,
       directorProcessOrForward cds (Some c) w0 = (Ok d, w')
       /\ snd w' = snd w0 ++ sent
       /\ Forall (fun m => cluster.Dst m = Some (remote true)) sent
       /\ dest d = "10_0_0_3".
Proof.
  split; [reflexivity|]. split; [repeat constructor|].
  destruct (later_remote_owners_get_nothing_but_the_credit
              (owners [remote true; far]) (remote true) [far]
              (mem [point "host.mem" 0]) w0 eq_refl
              ltac:(repeat constructor))
    as (d & w' & sent & Hrun & Hs & Hall & Hd & _).
  exists d, w', sent. repeat split; assumption.
Defined.

(** X3 on a run: the local node as the only owner. *)
Lemma sole_local_owner_is_like_no_cluster_witness :
  let cds := mem [point "host.mem" 0] in
  NodesForDistDatum (owners [local]) (DbDataSourcer cds) = [local]
  /\ String.eqb (cluster.Name local)
                (cluster.Name (LocalNode (owners [local]))) = true
  /\ directorProcessOrForward cds (Some (owners [local])) w0
     = directorProcessOrForward cds None w0.
Proof.
  split; [reflexivity|]. split; [reflexivity|].
  exact (sole_local_owner_is_like_no_cluster (owners [local]) local
           (mem [point "host.mem" 0]) w0 eq_refl eq_refl).
Defined.

(** X6 on a run: two points for the placeholder of ["host.cpu"]. *)
Lemma points_for_an_unloaded_handle_queue_up_witness :
  let dps := [point "host.cpu" 0; point "host.cpu" 1] in
  byIdent (dsc loading) !! "host.cpu" = Some (cpu [])
  /\ Id (DbDataSourcer (cpu [])) = 0
  /\ closed (loaderCh loading) = false
  /\ Forall (fun dp => Ident dp = "host.cpu" /\ IsNaN (Value dp) = false) dps
  /\ exists w',
       director false None
         (map (fun dp => DpOut (Some (ItemDP (Some dp)))) dps) loading
       = (Ok Continue, w')
       /\ byIdent (dsc w') !! "host.cpu" = Some (cpu dps).
Proof.
  split; [reflexivity|]. split; [reflexivity|]. split; [reflexivity|].
  split; [repeat constructor|].
  destruct (@points_for_an_unloaded_handle_queue_up ds storage unit persistence
              false None "host.cpu"
              (cpu []) [point "host.cpu" 0; point "host.cpu" 1] loading
              eq_refl eq_refl eq_refl ltac:(repeat constructor))
    as (w' & Hrun & Hby & _).
  exists w'. split; [exact Hrun|exact Hby].
Defined.

(** X7 on a run: the shutdown signal, then a point for the placeholder. *)
Lemma point_for_unloaded_handle_after_shutdown_panics_witness :
  closed (loaderCh loading) = false
  /\ byIdent (dsc loading) !! Ident (point "host.cpu" 0) = Some (cpu [])
  /\ Id (DbDataSourcer (cpu [])) = 0
  /\ IsNaN (Value (point "host.cpu" 0)) = false
  /\ (director false None
        [DpOut (Some ItemNil); DpOut (Some (ItemDP (Some (point "host.cpu" 0))))]
        loading).1
     = Panic "send on closed channel".
Proof.
  split; [reflexivity|]. split; [reflexivity|]. split; [reflexivity|].
  split; [reflexivity|].
  exact (@point_for_unloaded_handle_after_shutdown_panics ds storage unit
           persistence false None (point "host.cpu" 0) (cpu []) loading
           eq_refl eq_refl eq_refl eq_refl).
Defined.

(** X8 on a run: a value of another type, then the nil signal. *)
Lemma second_shutdown_signal_panics_witness :
  (director false None
     [DpOut (Some (ItemOther "string")); DpOut (Some ItemNil)] w0).1
  = Panic "close of closed channel".
Proof.
  exact (second_shutdown_signal_panics false None (ItemOther "string") ItemNil
           w0 I I).
Defined.

(** X11 on a run: the same loaded handle twice. *)
Lemma loader_passes_loaded_handles_in_order_witness :
  closed (dpCh loaded) = false
  /\ Forall (fun p => exists cds,
               byIdent (dsc loaded) !! p = Some cds /\ spec cds = None)
       ["host.mem"; "host.mem"]
  /\ exists w',
       loader [ItemCds (Some "host.mem"); ItemCds (Some "host.mem")] loaded
       = (Ok tt, w')
       /\ dpCh w' = mkChan true [ItemCds (Some "host.mem");
                                  ItemCds (Some "host.mem")].
Proof.
  assert (Hall : Forall (fun p => exists cds,
                           byIdent (dsc loaded) !! p = Some cds
                           /\ spec cds = None) ["host.mem"; "host.mem"]).
  { repeat constructor; exists (mem []); split; reflexivity. }
  split; [reflexivity|]. split; [exact Hall|].
  destruct (loader_passes_loaded_handles_in_order ["host.mem"; "host.mem"]
              loaded eq_refl Hall) as (w' & Hrun & Hd & _).
  exists w'. split; [exact Hrun|exact Hd].
Defined.

(** X18 on a run: a loaded handle in a cluster that names no owner. *)
Lemma no_owner_leaves_the_point_buffered_witness :
  let dp := point "host.mem" 0 in
  IsNaN (Value dp) = false
  /\ byIdent (dsc loaded) !! Ident dp = Some (mem [])
  /\ Id (DbDataSourcer (mem [])) <> 0
  /\ NodesForDistDatum (owners []) (DbDataSourcer (mem [])) = []
  /\ byIdent (dsc (directorProcessIncomingDP false dp (Some (owners []))
                     loaded).2) !! Ident dp
     = Some (appendIncoming (mem []) dp).
Proof.
  split; [reflexivity|]. split; [reflexivity|]. split; [discriminate|].
  split; [reflexivity|].
  exact (proj1 (proj2 (@no_owner_leaves_the_point_buffered ds storage unit
                         persistence false (point "host.mem" 0) (owners []) (mem []) loaded
                         eq_refl eq_refl ltac:(discriminate) eq_refl))).
Defined.

(** X12 on a run: the text of ["a.b.cpu"]. *)
Lemma suffix_is_what_follows_the_last_dot_witness :
  ~ In graphite.dot (list_ascii_of_string "cpu")
  /\ graphite.suffixOf ("a.b" +:+ String graphite.dot "cpu") = "cpu".
Proof.
  assert (Hno : ~ In graphite.dot (list_ascii_of_string "cpu")).
  { cbn. intros [H|[H|[H|[]]]]; discriminate. }
  split; [exact Hno|].
  exact (proj1 (suffix_is_what_follows_the_last_dot "a.b" "cpu" Hno)).
Defined.

(** X16 on a run: three points, one of them without a time. *)
Lemma render_writes_the_timed_points_witness :
  Z.of_nat (length GraphiteSample.points) < 2 ^ 63
  /\ graphite.writePoints GraphiteSample.showFloat GraphiteSample.showInt 0
       GraphiteSample.points
     = graphite.joinPoints GraphiteSample.showFloat GraphiteSample.showInt
         GraphiteSample.points.
Proof.
  split; [reflexivity|].
  exact (proj1 (render_writes_the_timed_points GraphiteSample.showFloat
                  GraphiteSample.showInt GraphiteSample.points eq_refl)).
Defined.

(** X17 on a run: a target with one series, then a target without any. *)
Lemma render_separates_the_elements_witness :
  Forall (fun target => Z.of_nat (length target) < 2 ^ 63)
    GraphiteSample.targets
  /\ graphite.renderBody GraphiteSample.showFloat GraphiteSample.showInt
       GraphiteSample.targets
     = "[" +:+ graphite.writeElements GraphiteSample.showFloat
                 GraphiteSample.showInt
                 (concat (map graphite.elementsOf GraphiteSample.targets))
       +:+ "]" +:+ graphite.nl.
Proof.
  assert (Hall : Forall (fun target => Z.of_nat (length target) < 2 ^ 63)
                   GraphiteSample.targets).
  { repeat constructor. }
  split; [exact Hall|].
  exact (render_separates_the_elements GraphiteSample.showFloat
           GraphiteSample.showInt GraphiteSample.targets Hall).
Defined.

(** The find handler on three nodes, two of which end in the same word. *)
Example find_shows_one_of_two_cpu_nodes :
  map graphite.Name (graphite.uniqNodes GraphiteSample.found) = ["a.cpu"; "b"].
Proof. reflexivity. Qed.

(** The render body of a series and an empty target. *)
Example render_of_a_series_and_an_empty_target :
  graphite.renderBody GraphiteSample.showFloat GraphiteSample.showInt
    GraphiteSample.targets
  = "[" +:+ graphite.nl
    +:+ "{" +:+ graphite.dq +:+ "target" +:+ graphite.dq +:+ ": "
    +:+ graphite.dq +:+ "a.cpu" +:+ graphite.dq +:+ ", "
    +:+ graphite.dq +:+ "datapoints" +:+ graphite.dq +:+ ": [" +:+ graphite.nl
    +:+ "[1, +],[null, +]]}," +:+ graphite.nl
    +:+ graphite.nl +:+ "{" +:+ graphite.dq +:+ "datapoints" +:+ graphite.dq
    +:+ ":[]}" +:+ graphite.nl
    +:+ "]" +:+ graphite.nl.
Proof. reflexivity. Qed.

(** C4 on a run: a loaded handle with two buffered points comes back from
    the loader, without a cluster; both points are accepted and counted. *)
Lemma every_decision_is_counted_witness :
  let cds := mem [point "host.mem" 0; point "host.mem" 0] in
  byIdent (dsc pending) !! "host.mem" = Some cds
  /\ exists d w1,
       directorProcessOrForward cds None pending = (Ok d, w1)
       /\ accepted d = 2
       /\ counter "receiver.datapoints.accepted"
            (trace (directorBody false None
                      (DpOut (Some (ItemCds (Some "host.mem")))) pending).2)
          = counter "receiver.datapoints.accepted" (trace pending)
            + accepted d.
Proof.
  split; [reflexivity|].
  destruct (proj1 (@every_decision_is_counted ds storage unit persistence
                     false None "host.mem"
                     (mem [point "host.mem" 0; point "host.mem" 0])
                     pending eq_refl))
    as (d & w1 & Hrun & _ & Hacc & _).
  assert (Ha : accepted d = 2).
  { assert (Hd : (directorProcessOrForward
                    (mem [point "host.mem" 0; point "host.mem" 0])
                    None pending).1
                 = Ok {| accepted := 2; forwarded := 0; dest := "";
                         handle :=
                           {| DbDataSourcer :=
                                mkDs "host.mem" 7 [(10, one); (10, one)];
                              incoming := []; spec := None;
                              created := false |} |})
      by reflexivity.
    rewrite Hrun in Hd. injection Hd as ->. reflexivity. }
  exists d, w1. split; [exact Hrun|]. split; [exact Ha|].
  apply Hacc. rewrite Ha. reflexivity.
Defined.
